(** * goopy: the link resolver and the column-name codec

    A shallow embedding of the pure logic of goopy's service classes:

    - [BaseService._extract_id] and [BaseService._get_file_id]
      (goopy/BaseGoogleServiceAPI.py), together with the three regular
      expressions the resolver searches for;
    - [SheetsService.__get_column_name] and [SheetsService.__get_column_names]
      (src/SheetServiceAPI.py);
    - the way each public method of the Sheets, Slides and Drive services
      turns its (link, id) pair into the identifier it sends to the remote API.

    Python values are modelled as follows.  An [int] is a [Z].  A [str] is a
    [string], read as its UTF-8 bytes: the regular expressions only mention ASCII
    characters, and a byte of a multi-byte sequence is never an ASCII byte, so
    searching the bytes finds what searching the code points finds.  An argument
    that defaults to [None] is an [option string].  A call either returns a value
    or raises an exception: [outcome]. *)

From Stdlib Require Import ZArith List String Ascii Bool Lia.
From Equations Require Import Equations.
Import ListNotations.

Open Scope string_scope.
Open Scope Z_scope.

(** ** Outcomes of a Python call *)

(** [ValueError] carries its message.  The message of the [TypeError] that
    [re.search] raises on a non-string differs between Python versions and is
    left out; [UnboundLocalError] is what reading an unassigned local raises.
    [InvalidLabelError] is not a class of the code: it belongs to the
    specification's inverse conversion, modelled further down. *)
Inductive exn : Type :=
| ValueError (msg : string)
| TypeError
| UnboundLocalError
| InvalidLabelError (label : string).

Inductive outcome (A : Type) : Type :=
| Returns (a : A)
| Raises (e : exn).

Arguments Returns {A} a.
Arguments Raises {A} e.

Definition bind {A B : Type} (c : outcome A) (k : A -> outcome B) : outcome B :=
  match c with
  | Returns a => k a
  | Raises e => Raises e
  end.

Notation "x <- c ;; k" := (bind c (fun x => k))
  (at level 61, c at next level, right associativity).

(** Python truthiness of an optional string: [None] and [''] are falsy. *)
Definition truthy (v : option string) : bool :=
  match v with
  | None => false
  | Some "" => false
  | Some _ => true
  end.

(** [if not v: absent else: present(v)], the branch on a truthy [v] seeing the
    non-empty string. *)
Definition if_not {A : Type} (v : option string) (absent : A) (present : string -> A) : A :=
  match v with
  | Some (String c s) => present (String c s)
  | _ => absent
  end.

(** [for x in xs: s = body(s, x)], an exception ending the loop. *)
Fixpoint for_each {A S : Type} (xs : list A) (body : S -> A -> outcome S) (s : S)
    : outcome S :=
  match xs with
  | [] => Returns s
  | x :: xs' => s' <- body s x ;; for_each xs' body s'
  end.

(** [range(lo, hi)]: empty when [hi <= lo]. *)
Definition range (lo hi : Z) : list Z :=
  map (fun k => lo + Z.of_nat k) (seq 0 (Z.to_nat (hi - lo))).

(** [ord(c)], and [chr(n)] for [0 <= n < 128], which is one byte of the string;
    the codec below calls [chr] on 65..90 only. *)
Definition ord (c : ascii) : Z := Z.of_N (N_of_ascii c).

Definition chr (n : Z) : string := String (ascii_of_N (Z.to_N n)) EmptyString.

(** A character in the range [lo-hi] of a character class. *)
Definition between (lo hi c : ascii) : bool :=
  (N_of_ascii lo <=? N_of_ascii c)%N && (N_of_ascii c <=? N_of_ascii hi)%N.

(** Every character of [s] satisfies [f]. *)
Fixpoint all_chars (f : ascii -> bool) (s : string) : bool :=
  match s with
  | EmptyString => true
  | String c s' => f c && all_chars f s'
  end.

(** [strip p s] is the rest of [s] after its prefix [p], if [s] starts with [p]. *)
Fixpoint strip (p s : string) : option string :=
  match p with
  | EmptyString => Some s
  | String a p' =>
      match s with
      | EmptyString => None
      | String b s' => if Ascii.eqb a b then strip p' s' else None
      end
  end.

(** [needle in hay] *)
Fixpoint occurs (needle hay : string) : bool :=
  match strip needle hay with
  | Some _ => true
  | None =>
      match hay with
      | EmptyString => false
      | String _ hay' => occurs needle hay'
      end
  end.

(** [s[::-1]] *)
Fixpoint reverse (s : string) : string :=
  match s with
  | EmptyString => EmptyString
  | String c s' => reverse s' ++ String c EmptyString
  end.

(** ** Outcomes of the methods that read dictionaries and lists

    These methods can raise more than [exn] holds: [Exception] itself, the
    [KeyError] of a missing dictionary key (a string, or the integer of an
    index used on a dictionary), the [IndexError] of a list or string, and the
    [AttributeError] of calling [.get] on what is no dictionary. *)

Inductive error : Type :=
| Known (e : exn)
| Exception (msg : string)
| KeyError (key : string)
| KeyErrorInt (key : Z)
| IndexError
| AttributeError.

Inductive result (A : Type) : Type :=
| Done (a : A)
| Failed (e : error).

Arguments Done {A} a.
Arguments Failed {A} e.

Definition and_then {A B : Type} (c : result A) (k : A -> result B) : result B :=
  match c with
  | Done a => k a
  | Failed e => Failed e
  end.

Notation "x <-- c ;; k" := (and_then c (fun x => k))
  (at level 61, c at next level, right associativity).

(** A call of a method that raises only what [exn] holds. *)
Definition known {A : Type} (c : outcome A) : result A :=
  match c with
  | Returns a => Done a
  | Raises e => Failed (Known e)
  end.

(** [for x in xs: s = body(s, x)] once more, for these outcomes. *)
Fixpoint for_all {A S : Type} (xs : list A) (body : S -> A -> result S) (s : S)
    : result S :=
  match xs with
  | [] => Done s
  | x :: xs' => s' <-- body s x ;; for_all xs' body s'
  end.

(** [l[i]]: a negative index counts from the end. *)
Definition list_item {A : Type} (l : list A) (i : Z) : result A :=
  let i := if i <? 0 then i + Z.of_nat (List.length l) else i in
  if i <? 0 then Failed IndexError
  else
    match nth_error l (Z.to_nat i) with
    | Some x => Done x
    | None => Failed IndexError
    end.

(** ** JSON values, as the API client hands them over

    Dictionaries keep their entries in order and are read by the first entry
    of a key.  Numbers are integers here: no method below looks at one. *)

#[warnings="-register-all"]
Inductive json : Type :=
| JNone
| JBool (b : bool)
| JInt (n : Z)
| JStr (s : string)
| JList (items : list json)
| JDict (entries : list (string * json)).

Fixpoint entries_get (key : string) (entries : list (string * json)) : option json :=
  match entries with
  | [] => None
  | (k, v) :: entries' => if String.eqb key k then Some v else entries_get key entries'
  end.

(** [v[key]] for a string [key]: only a dictionary can be read that way. *)
Definition item (v : json) (key : string) : result json :=
  match v with
  | JDict entries =>
      match entries_get key entries with
      | Some x => Done x
      | None => Failed (KeyError key)
      end
  | _ => Failed (Known TypeError)
  end.

(** A byte that starts a character of a UTF-8 string (it is not [10xxxxxx]). *)
Definition starts_char (c : ascii) : bool :=
  negb ((128 <=? N_of_ascii c)%N && (N_of_ascii c <? 192)%N).

(** The string without its first character, and its first character. *)
Fixpoint skip_rest (s : string) : string :=
  match s with
  | EmptyString => EmptyString
  | String c s' => if starts_char c then s else skip_rest s'
  end.

Fixpoint take_rest (s : string) : string :=
  match s with
  | EmptyString => EmptyString
  | String c s' => if starts_char c then EmptyString else String c (take_rest s')
  end.

Definition tail_chars (s : string) : string :=
  match s with
  | EmptyString => EmptyString
  | String _ s' => skip_rest s'
  end.

Definition head_char (s : string) : option string :=
  match s with
  | EmptyString => None
  | String c s' => Some (String c (take_rest s'))
  end.

(** [v[1]]: the second item of a list, the second character of a string; on a
    dictionary, whose keys are strings, the key [1] is missing. *)
Definition item1 (v : json) : result json :=
  match v with
  | JList items =>
      match nth_error items 1 with
      | Some x => Done x
      | None => Failed IndexError
      end
  | JStr s =>
      match head_char (tail_chars s) with
      | Some c => Done (JStr c)
      | None => Failed IndexError
      end
  | JDict _ => Failed (KeyErrorInt 1)
  | _ => Failed (Known TypeError)
  end.

(** [v.get(key)]: [None] for a missing key; only a dictionary has [.get]. *)
Definition get (v : json) (key : string) : result json :=
  match v with
  | JDict entries =>
      match entries_get key entries with
      | Some x => Done x
      | None => Done JNone
      end
  | _ => Failed AttributeError
  end.

(** Truthiness of a value. *)
Definition json_truthy (v : json) : bool :=
  match v with
  | JNone => false
  | JBool b => b
  | JInt n => negb (n =? 0)
  | JStr s => negb (String.eqb s "")
  | JList items => match items with [] => false | _ => true end
  | JDict entries => match entries with [] => false | _ => true end
  end.

(** ** The fragment of [re] the resolver uses

    Each of the three expressions has the shape
    [lead (alt_1|...|alt_n) sep ([cls]+)]: a literal, a first group that is an
    alternation of literals, a literal, and a second group that is a greedy
    non-empty run of one character class.  [search] is [re.search]: the leftmost
    position at which the expression matches, and there the first alternative
    (in the order written) for which the rest of the expression matches. *)

Module Re.

Record pattern : Type := Pattern {
  lead : string;
  alts : list string;
  sep : string;
  cls : ascii -> bool
}.

(** A match object, by the two groups of the expression. *)
Record Match : Type := MkMatch {
  group1 : string;
  group2 : string
}.

(** The longest prefix of [s] whose characters all satisfy [f]. *)
Fixpoint run (f : ascii -> bool) (s : string) : string :=
  match s with
  | EmptyString => EmptyString
  | String c s' => if f c then String c (run f s') else EmptyString
  end.

(** [sep ([cls]+)] at the start of [s]. *)
Definition tail_at (sep : string) (cls : ascii -> bool) (s : string) : option string :=
  match strip sep s with
  | None => None
  | Some rest =>
      match run cls rest with
      | EmptyString => None
      | id => Some id
      end
  end.

(** [(alt_1|...|alt_n) sep ([cls]+)] at the start of [s]: the alternatives are
    tried in order, and one whose continuation fails is given up for the next. *)
Fixpoint alts_at (alts : list string) (sep : string) (cls : ascii -> bool)
    (s : string) : option Match :=
  match alts with
  | [] => None
  | a :: alts' =>
      match
        match strip a s with
        | None => None
        | Some rest => tail_at sep cls rest
        end
      with
      | Some id => Some (MkMatch a id)
      | None => alts_at alts' sep cls s
      end
  end.

(** The whole expression at the start of [s]. *)
Definition match_at (p : pattern) (s : string) : option Match :=
  match strip (lead p) s with
  | None => None
  | Some rest => alts_at (alts p) (sep p) (cls p) rest
  end.

(** [re.search]: every start position of [s], from the left. *)
Fixpoint search (p : pattern) (s : string) : option Match :=
  match match_at p s with
  | Some m => Some m
  | None =>
      match s with
      | EmptyString => None
      | String _ s' => search p s'
      end
  end.

(** [s] holds the shape of [p] somewhere: the literals of one alternative,
    followed by a character of the class. *)
Definition occurs_in (p : pattern) (s : string) : Prop :=
  exists before a c after,
    In a (alts p) /\ cls p c = true
    /\ s = before ++ lead p ++ a ++ sep p ++ String c after.

End Re.

(** ** BaseService (goopy/BaseGoogleServiceAPI.py) *)

Module BaseService.

(** The class [[a-zA-Z0-9-_]] (written [[a-zA-Z0-9_-]] in the third
    expression): after the range [0-9] the hyphen is a literal. *)
Definition id_char (c : ascii) : bool :=
  between "a" "z" c || between "A" "Z" c || between "0" "9" c
  || Ascii.eqb c "-" || Ascii.eqb c "_".

(** [r'/(spreadsheets|presentation)/d/([a-zA-Z0-9-_]+)'] *)
Definition sheets_re : Re.pattern :=
  Re.Pattern "/" ["spreadsheets"; "presentation"] "/d/" id_char.

(** [r'/drive/(folders|d)/([a-zA-Z0-9-_]+)'] *)
Definition drive_re : Re.pattern :=
  Re.Pattern "/drive/" ["folders"; "d"] "/" id_char.

(** [r'(id)=([a-zA-Z0-9_-]+)'] *)
Definition id_re : Re.pattern :=
  Re.Pattern "" ["id"] "=" id_char.

(** [match if match else re.search(...)]: a match object is truthy, [None] is not. *)
Definition or_else (m : option Re.Match) (next : option Re.Match) : option Re.Match :=
  match m with
  | Some _ => m
  | None => next
  end.

Definition _extract_id (link : string) : outcome string :=
  let m := Re.search sheets_re link in
  let m := or_else m (Re.search drive_re link) in
  let m := or_else m (Re.search id_re link) in
  match m with
  | Some m => Returns (Re.group2 m)
  | None => Raises (ValueError "Invalid Google link")
  end.

(** The three searches, named, and the same function with every call of
    [re.search] it evaluates recorded in order: the conditional expression
    [match if match else re.search(...)] evaluates its [else] operand only
    when [match] is [None]. *)
Inductive shape : Type := Sheets | Drive | IdParam.

Definition re_of (sh : shape) : Re.pattern :=
  match sh with
  | Sheets => sheets_re
  | Drive => drive_re
  | IdParam => id_re
  end.

Definition search_logged (sh : shape) (link : string) (log : list shape)
    : list shape * option Re.Match :=
  ((log ++ [sh])%list, Re.search (re_of sh) link).

Definition or_else_logged (r : list shape * option Re.Match) (sh : shape) (link : string)
    : list shape * option Re.Match :=
  match snd r with
  | Some _ => r
  | None => search_logged sh link (fst r)
  end.

Definition _extract_id_logged (link : string) : list shape * outcome string :=
  let r := search_logged Sheets link [] in
  let r := or_else_logged r Drive link in
  let r := or_else_logged r IdParam link in
  (fst r,
   match snd r with
   | Some m => Returns (Re.group2 m)
   | None => Raises (ValueError "Invalid Google link")
   end).

(** A call [self._extract_id(link)] from a method whose [link] may still be
    [None]: the first [re.search] then raises TypeError. *)
Definition _extract_id_of (link : option string) : outcome string :=
  match link with
  | None => Raises TypeError
  | Some l => _extract_id l
  end.

Definition _get_file_id (file_link file_id : option string) : outcome string :=
  if_not file_id
    (if_not file_link
       (Raises (ValueError "Either file_link or file_id must be provided."))
       (fun file_link => _extract_id file_link))
    (fun file_id => Returns file_id).

(** What [_get_credentials] asks of the file system: [os.path.exists],
    [os.path.isfile] and [os.access(_, os.R_OK)]. *)
Record file_system : Type := FileSystem {
  path_exists : string -> bool;
  path_isfile : string -> bool;
  path_readable : string -> bool
}.

(** [_get_credentials], given the value of the environment variable
    GOOGLE_APPLICATION_CREDENTIALS ([None] when it is not set) and the file
    system: the messages it logs as errors, and its outcome. *)
Definition _get_credentials (getenv : option string) (fs : file_system)
    (service_account_file : option string) : list string * result string :=
  let service_account_file :=
    match service_account_file with
    | None => getenv
    | Some _ => service_account_file
    end in
  match service_account_file with
  | None =>
      ([], Failed (Exception "The service_account_file option must be set either by passing service_account_file to the client or by setting the GOOGLE_APPLICATION_CREDENTIALS environment variable"))
  | Some file =>
      (if negb (path_exists fs file) then ["service_account_file does not exist."]
       else if negb (path_isfile fs file) then ["service_account_file is not a file."]
       else if negb (path_readable fs file) then ["service_account_file cannot be read."]
       else [],
       Done file)
  end.

End BaseService.

(** ** SheetsService (src/SheetServiceAPI.py) *)

Module SheetsService.

(** The [while idx > 0] loop of [__get_column_name], on [idx] and [result]. *)
Equations? column_name_loop (idx : Z) (result : string) : string
    by wf (Z.to_nat idx) lt :=
  column_name_loop idx result with Z_gt_dec idx 0 := {
    | left _ =>
        let letter_index := (idx - 1) mod 26 in
        column_name_loop ((idx - 1) / 26) (result ++ chr (letter_index + ord "A"))
    | right _ => result }.
Proof.
  assert ((idx - 1) / 26 < idx) by (apply Z.div_lt_upper_bound; lia).
  assert (0 <= (idx - 1) / 26) by (apply Z.div_pos; lia).
  lia.
Qed.

Definition __get_column_name (idx : Z) : outcome string :=
  Returns (reverse (column_name_loop idx "")).

Definition __get_column_names (columns_num : Z) : outcome (list string) :=
  for_each (range 1 (columns_num + 1))
    (fun output i => name <- __get_column_name i ;; Returns (output ++ [name])%list)
    [].

(** The identifier each public method sends to the remote API as the
    [spreadsheetId] of its request, as the statements before the request
    compute it from the (link, id) pair; an exception raised before the request
    is the outcome of the call. *)
Definition get_sheet (file_link file_id : option string) : outcome string :=
  file_id <- BaseService._get_file_id file_link file_id ;;
  if_not (Some file_id)
    (if_not file_link
       (Raises (ValueError "Either link or sheet_id must be provided."))
       (fun file_link => BaseService._extract_id file_link))
    (fun file_id => Returns file_id).




(** [get_dataframe_from_sheet], first part: with no [sheet] given it fetches
    one through [get_sheet], and answers any ValueError of that call with one
    of its own.  The result is the identifier [get_sheet] resolves, [None]
    standing for a call that was given its sheet. *)
Definition get_dataframe_from_sheet_id (has_sheet : bool)
    (file_link file_id : option string) : outcome (option string) :=
  if negb has_sheet then
    match get_sheet file_link file_id with
    | Returns file_id => Returns (Some file_id)
    | Raises (ValueError _) =>
        Raises (ValueError "Either sheet or file_link or file_id must be provided.")
    | Raises e => Raises e
    end
  else Returns None.

(** The loop that finds the length of the longest row. *)
Definition max_len (values : list (list string)) : Z :=
  fold_left
    (fun max_len row =>
       if Z.of_nat (List.length row) >? max_len then Z.of_nat (List.length row)
       else max_len)
    values 0.

(** [get_dataframe_from_sheet], second part: the [headers] of the frame, from
    the rows [sheet['values']] ([None] when the sheet has no such key) and
    [header_id], where [False] is 0 and [True] is 1. *)
Definition headers (values : option (list (list string))) (header_id : Z)
    : result (list string) :=
  if negb (header_id =? 0) then
    match values with
    | None => Failed (KeyError "values")
    | Some values => list_item values header_id
    end
  else
    match values with
    | None => Failed (KeyError "values")
    | Some values => known (__get_column_names (max_len values))
    end.

End SheetsService.

(** ** SlidesService (src/SlidesServiceApi.py) *)

Module SlidesService.



(** [r'#[a-zA-Z0-9-_]+'], in the shape of [Re.pattern] with a first group
    that is empty; the whole match, [group(0)], is the [#] and the run. *)
Definition tag_re : Re.pattern := Re.Pattern "#" [""] "" BaseService.id_char.

Definition group0 (m : Re.Match) : string := "#" ++ Re.group2 m.

(** [re.search(r'#...', note_text).group(0)] under the bare [except]: [None]
    stands for the [continue], taken when [note_text] is no string (TypeError)
    and when nothing matches (AttributeError on [None]). *)
Definition find_tag (note_text : json) : option string :=
  match note_text with
  | JStr s => option_map group0 (Re.search tag_re s)
  | _ => None
  end.

(** [hashtag_slide_map[tag].append(x)] on a [defaultdict(list)], the keys in
    the order they were first used. *)
Fixpoint append_at (tag : string) (x : json) (m : list (string * list json))
    : list (string * list json) :=
  match m with
  | [] => [(tag, [x])]
  | (k, v) :: m' =>
      if String.eqb k tag then (k, (v ++ [x])%list) :: m'
      else (k, v) :: append_at tag x m'
  end.

(** The body of the loop of [get_tags_from_speaker_notes]. *)
Definition tag_slide (hashtag_slide_map : list (string * list json)) (slide : json)
    : result (list (string * list json)) :=
  properties <-- item slide "slideProperties" ;;
  page <-- item properties "notesPage" ;;
  elements <-- item page "pageElements" ;;
  element <-- item1 elements ;;
  shape <-- item element "shape" ;;
  note <-- get shape "text" ;;
  if json_truthy note then
    elements <-- item note "textElements" ;;
    element <-- item1 elements ;;
    text_run <-- item element "textRun" ;;
    note_text <-- item text_run "content" ;;
    match find_tag note_text with
    | None => Done hashtag_slide_map
    | Some tag =>
        object_id <-- item slide "objectId" ;;
        Done (append_at tag object_id hashtag_slide_map)
    end
  else Done hashtag_slide_map.

Definition get_tags_from_speaker_notes (slides : list json)
    : result (list (string * list json)) :=
  for_all slides tag_slide [].

End SlidesService.

(** ** DriveService (goopy/DriveServiceAPI.py)

    The Drive methods do not call [_get_file_id]: each one tests its id and
    calls [_extract_id] on the link itself. *)

Module DriveService.

(** [get_folder_files]: the folder identifier its query names. *)
Definition get_folder_files (folder_link folder_id : option string) : outcome string :=
  if_not folder_id (BaseService._extract_id_of folder_link)
    (fun folder_id => Returns folder_id).

(** [download_file]: the [fileId] of the request it builds. *)
Definition download_file (file_link file_id : option string) : outcome string :=
  if_not file_id (BaseService._extract_id_of file_link) (fun file_id => Returns file_id).

(** [create_file]: the two tests of its folder pair and the folder identifier
    they leave; the test of [file_type] that follows is in
    [create_file_metadata] below. *)
Definition create_file (folder_id folder_link : option string) : outcome string :=
  if_not folder_id
    (if_not folder_link
       (Raises (ValueError "Either folder_id or folder_link must be provided."))
       (fun folder_link => BaseService._extract_id folder_link))
    (fun folder_id => Returns folder_id).

(** [copy_file] resolves two pairs and sends [file_id] and [parent_folder_id];
    the latter is assigned only when [folder_id] is falsy. *)
Definition copy_file (file_link file_id folder_link folder_id : option string)
    : outcome (string * string) :=
  file_id <- if_not file_id (BaseService._extract_id_of file_link)
               (fun file_id => Returns file_id) ;;
  parent_folder_id <- if_not folder_id (BaseService._extract_id_of folder_link)
                        (fun _ => Raises UnboundLocalError) ;;
  Returns (file_id, parent_folder_id).

(** [generate_access_link] *)
Definition generate_access_link (file_id : string) : string :=
  "https://drive.google.com/file/d/" ++ file_id ++ "/view?usp=sharing".

(** The inner function of [download_folder] as far as its first statement,
    [self.get_folder_files(folder_id)]: the one positional argument binds to
    [folder_link], and [folder_id] keeps its default [None]. *)
Definition download_and_map (folder_id : string) : outcome string :=
  get_folder_files (Some folder_id) None.

(** [download_folder] as far as its first listing: it resolves its own pair
    and calls [download_and_map(folder_id, local_path)].  The result is the
    identifier whose children would be listed. *)
Definition download_folder_listing (folder_link folder_id : option string)
    : outcome string :=
  folder_id <- if_not folder_id (BaseService._extract_id_of folder_link)
                 (fun folder_id => Returns folder_id) ;;
  download_and_map folder_id.

(** The body [create_file] sends: the dictionary [file_metadata]. *)
Record file_metadata : Type := FileMetadata {
  name : string;
  mimeType : string;
  parents : list string
}.

Definition mime_types : list (string * string) :=
  [("spreadsheet", "application/vnd.google-apps.spreadsheet");
   ("document", "application/vnd.google-apps.document");
   ("presentation", "application/vnd.google-apps.presentation")].

(** [d.get(key)] on a dictionary with string keys. *)
Fixpoint dict_get (key : string) (d : list (string * string)) : option string :=
  match d with
  | [] => None
  | (k, v) :: d' => if String.eqb key k then Some v else dict_get key d'
  end.

Definition create_file_metadata (file_name file_type : string)
    (folder_id folder_link : option string) : outcome file_metadata :=
  folder_id <- create_file folder_id folder_link ;;
  match dict_get file_type mime_types with
  | None =>
      Raises (ValueError ("Invalid file type: " ++ file_type
                ++ ". Supported types are: ['spreadsheet', 'document', 'presentation']"))
  | Some mime_type =>
      Returns (FileMetadata file_name mime_type
                 (if_not (Some folder_id) [] (fun folder_id => [folder_id])))
  end.

End DriveService.

(** ** The inverse conversion of the specification *)

Module ColumnCodec.

Definition upper (c : ascii) : bool := between "A" "Z" c.

(** The value of a label in bijective base-26 numbering (A=1 ... Z=26, AA=27 ...),
    most significant letter first. *)
Fixpoint label_value_from (acc : Z) (label : string) : Z :=
  match label with
  | EmptyString => acc
  | String c rest => label_value_from (acc * 26 + (ord c - ord "A" + 1)) rest
  end.

Definition label_value (label : string) : Z := label_value_from 0 label.

(** Modelled from the spec: [labelToIndex], the inverse of the index-to-label
    conversion, is missing from the repository (which only converts an index to
    a label).  The specification wants the 1-based index of a label in
    bijective base-26 numbering, and an [InvalidLabelError] on the empty label
    and on a label with a character outside A-Z. *)
Definition labelToIndex (label : string) : outcome Z :=
  match label with
  | EmptyString => Raises (InvalidLabelError label)
  | String _ _ =>
      if all_chars upper label then Returns (label_value label)
      else Raises (InvalidLabelError label)
  end.

End ColumnCodec.

(** ** What the claims speak of *)

(** An exception carries [input] when [input] occurs in its payload. *)
Definition carries (e : exn) (input : string) : bool :=
  match e with
  | ValueError msg => occurs input msg
  | InvalidLabelError label => occurs input label
  | TypeError | UnboundLocalError => false
  end.

(** The precedence of [_get_file_id], as a property of a function that resolves
    a (link, id) pair: a non-empty id is returned unchanged whatever the link
    is, a call with neither fails with a ValueError, and a call with a link
    only gives what the resolver gives on the link. *)
Definition link_id_precedence (resolve : option string -> option string -> outcome string)
    : Prop :=
  (forall link id, truthy (Some id) = true -> resolve link (Some id) = Returns id)
  /\ (forall link id, truthy link = false -> truthy id = false ->
        exists msg, resolve link id = Raises (ValueError msg))
  /\ (forall link id, truthy (Some link) = true -> truthy id = false ->
        resolve (Some link) id = BaseService._extract_id link).


(** The letter the loop appends for [idx], and the string [__get_column_name]
    returns, named for the statements below. *)
Definition letter_of (idx : Z) : ascii :=
  ascii_of_N (Z.to_N ((idx - 1) mod 26 + ord "A")).

Definition column_label (idx : Z) : string :=
  reverse (SheetsService.column_name_loop idx "").

(** ** Devices of the proofs below

    None of these is code of the repository: [lacks] and [digit] name sets of
    strings, [segments] is [s.split('/')], and [windows3] looks for three
    consecutive segments. *)

Definition lacks (x : ascii) (s : string) : bool :=
  all_chars (fun c => negb (Ascii.eqb c x)) s.

Definition digit (c : ascii) : bool := between "0" "9" c.

Fixpoint segments (s : string) : list string :=
  match s with
  | EmptyString => [EmptyString]
  | String c s' =>
      if Ascii.eqb c "/" then EmptyString :: segments s'
      else
        match segments s' with
        | seg :: rest => String c seg :: rest
        | [] => [String c EmptyString]
        end
  end.

Fixpoint windows3 (f : string -> string -> string -> bool) (l : list string) : bool :=
  match l with
  | a :: l' =>
      match l' with
      | b :: c :: _ => f a b c || windows3 f l'
      | _ => false
      end
  | [] => false
  end.

(** The first character of [s] is one of the class. *)
Definition starts_in (cls : ascii -> bool) (s : string) : bool :=
  match s with
  | String c _ => cls c
  | EmptyString => false
  end.

(** [a in l] for strings. *)
Definition in_list (a : string) (l : list string) : bool := existsb (String.eqb a) l.

(** Three consecutive segments that the spreadsheet expression, and the drive
    expression, can match. *)
Definition sheets_window (a b c : string) : bool :=
  in_list a ["spreadsheets"; "presentation"] && String.eqb b "d"
  && starts_in BaseService.id_char c.

Definition drive_window (a b c : string) : bool :=
  String.eqb a "drive" && in_list b ["folders"; "d"]
  && starts_in BaseService.id_char c.

(** A hashtag: [#] and a non-empty run of allowed characters. *)
Definition is_tag (tag : string) : Prop :=
  exists name,
    tag = "#" ++ name /\ name <> "" /\ all_chars BaseService.id_char name = true.

(** The number of slide ids a map of tags holds. *)
Definition held (m : list (string * list json)) : nat :=
  fold_right (fun entry n => (List.length (snd entry) + n)%nat) 0%nat m.

(** A slide as the Slides API describes it, with [object_id] and speaker
    notes whose second text element is a run of text [note]. *)
Definition slide_with_note (object_id note : string) : json :=
  JDict
    [("objectId", JStr object_id);
     ("slideProperties",
      JDict
        [("notesPage",
          JDict
            [("pageElements",
              JList
                [JDict [("image", JDict [])];
                 JDict
                   [("shape",
                     JDict
                       [("text",
                         JDict
                           [("textElements",
                             JList
                               [JDict [("paragraphMarker", JDict [])];
                                JDict [("textRun", JDict [("content", JStr note)])]])])])]])])])].

(** * Proofs *)

(** ** Strings *)

Lemma append_empty_r (s : string) : s ++ "" = s.
Proof. induction s as [|c s IH]; simpl; [reflexivity | now rewrite IH]. Qed.

Lemma append_assoc (a b c : string) : (a ++ b) ++ c = a ++ (b ++ c).
Proof. induction a as [|x a IH]; simpl; [reflexivity | now rewrite IH]. Qed.

Lemma reverse_snoc (s : string) (c : ascii) :
  reverse (s ++ String c "") = String c (reverse s).
Proof.
  induction s as [|x s IH]; simpl; [reflexivity |].
  rewrite IH. reflexivity.
Qed.

Lemma all_chars_append (f : ascii -> bool) (a b : string) :
  all_chars f (a ++ b) = all_chars f a && all_chars f b.
Proof.
  induction a as [|x a IH]; simpl; [reflexivity |].
  rewrite IH. now rewrite andb_assoc.
Qed.

Lemma append_eq_empty (a b : string) : a ++ b = "" -> a = "" /\ b = "".
Proof. destruct a; simpl; [auto | discriminate]. Qed.

(** ** The search *)

Section Search.
Import Re.

Lemma strip_append (p r : string) : strip p (p ++ r) = Some r.
Proof.
  induction p as [|a p IH]; simpl; [reflexivity |].
  now rewrite Ascii.eqb_refl.
Qed.

Lemma strip_some (p : string) : forall s r, strip p s = Some r -> s = p ++ r.
Proof.
  induction p as [|a p IH]; intros s r Hstrip; simpl in *.
  - now injection Hstrip as ->.
  - destruct s as [|b s]; [discriminate |].
    destruct (Ascii.eqb_spec a b) as [->|_]; [| discriminate].
    f_equal. now apply IH.
Qed.

Lemma occurs_unfold (needle hay : string) :
  occurs needle hay
  = match strip needle hay with
    | Some _ => true
    | None =>
        match hay with
        | EmptyString => false
        | String _ hay' => occurs needle hay'
        end
    end.
Proof. destruct hay; reflexivity. Qed.

Lemma occurs_append (needle after : string) :
  forall before, occurs needle (before ++ needle ++ after) = true.
Proof.
  induction before as [|x before IH].
  - rewrite occurs_unfold. simpl. now rewrite strip_append.
  - change ((String x before) ++ needle ++ after)
      with (String x (before ++ needle ++ after)).
    rewrite occurs_unfold.
    destruct (strip needle _); [reflexivity | exact IH].
Qed.

Lemma run_all (f : ascii -> bool) (s : string) : all_chars f (run f s) = true.
Proof.
  induction s as [|c s IH]; simpl; [reflexivity |].
  destruct (f c) eqn:Hc; simpl; [| reflexivity]. now rewrite Hc.
Qed.

(** The run is a prefix, and it is the whole run: what follows does not start
    with a character of the class. *)
Lemma run_rest (f : ascii -> bool) (s : string) :
  exists rest, s = run f s ++ rest /\ run f rest = "".
Proof.
  induction s as [|c s [rest [Hs Hrest]]]; simpl.
  - now exists "".
  - destruct (f c) eqn:Hc.
    + exists rest. simpl. now rewrite <- Hs.
    + exists (String c s). simpl. now rewrite Hc.
Qed.

Lemma tail_at_some (sep : string) (cls : ascii -> bool) (s id : string) :
  tail_at sep cls s = Some id ->
  id <> "" /\ all_chars cls id = true
  /\ exists rest, s = sep ++ id ++ rest /\ run cls rest = "".
Proof.
  unfold tail_at. intros Htail.
  destruct (strip sep s) as [after|] eqn:Hstrip; [| discriminate].
  apply strip_some in Hstrip. subst s.
  pose proof (run_all cls after) as Hall.
  destruct (run_rest cls after) as [rest [Hafter Hrest]].
  destruct (run cls after) as [|c r] eqn:Hrun; [discriminate |].
  injection Htail as <-. split; [discriminate |]. split; [exact Hall |].
  exists rest. now rewrite <- Hafter.
Qed.

Lemma tail_at_complete (sep : string) (cls : ascii -> bool) (c : ascii) (after : string) :
  cls c = true -> tail_at sep cls (sep ++ String c after) <> None.
Proof.
  intros Hc. unfold tail_at. rewrite strip_append. simpl. rewrite Hc. discriminate.
Qed.

Lemma alts_at_some (sep : string) (cls : ascii -> bool) (s : string) (m : Match) :
  forall choices,
    alts_at choices sep cls s = Some m ->
    In (group1 m) choices /\ group2 m <> "" /\ all_chars cls (group2 m) = true
    /\ exists rest, s = group1 m ++ sep ++ group2 m ++ rest /\ run cls rest = "".
Proof.
  induction choices as [|a choices IH]; simpl; [intros Hm; discriminate Hm |].
  destruct (strip a s) as [after|] eqn:Hstrip.
  - destruct (tail_at sep cls after) as [id|] eqn:Htail.
    + intros Hm. injection Hm as <-. simpl.
      apply strip_some in Hstrip. apply tail_at_some in Htail.
      destruct Htail as [Hne [Hall [rest [Hafter Hrest]]]].
      split; [now left |]. split; [exact Hne |]. split; [exact Hall |].
      exists rest. now rewrite Hstrip, Hafter.
    + intros Hm. destruct (IH Hm) as [Hin Hrest]. split; [now right | exact Hrest].
  - intros Hm. destruct (IH Hm) as [Hin Hrest]. split; [now right | exact Hrest].
Qed.

Lemma alts_at_complete (sep : string) (cls : ascii -> bool) (a : string) (c : ascii)
    (after : string) :
  cls c = true ->
  forall choices,
    In a choices -> alts_at choices sep cls (a ++ sep ++ String c after) <> None.
Proof.
  intros Hc. induction choices as [|x choices IH]; simpl; [contradiction |].
  intros [->|Hin].
  - rewrite strip_append.
    destruct (tail_at sep cls (sep ++ String c after)) eqn:Htail; [discriminate |].
    now apply tail_at_complete in Htail.
  - destruct (match strip x _ with Some _ => _ | None => _ end); [discriminate |].
    now apply IH.
Qed.

(** What a successful search found: the second group is a non-empty run of
    the class, it sits in the string right after the literals of the
    expression, and it is not cut short. *)
Lemma search_some (p : pattern) (m : Match) :
  forall s,
    search p s = Some m ->
    In (group1 m) (alts p) /\ group2 m <> ""
    /\ all_chars (cls p) (group2 m) = true
    /\ exists before rest,
         s = before ++ lead p ++ group1 m ++ sep p ++ group2 m ++ rest
         /\ run (cls p) rest = "".
Proof.
  assert (Hat : forall s, match_at p s = Some m ->
            In (group1 m) (alts p) /\ group2 m <> ""
            /\ all_chars (cls p) (group2 m) = true
            /\ exists rest,
                 s = lead p ++ group1 m ++ sep p ++ group2 m ++ rest
                 /\ run (cls p) rest = "").
  { intros s. unfold match_at.
    destruct (strip (lead p) s) as [after|] eqn:Hstrip;
      [| intros Hm; discriminate Hm].
    intros Hm. apply strip_some in Hstrip. apply alts_at_some in Hm.
    destruct Hm as [Hin [Hne [Hall [rest [Hafter Hrest]]]]].
    repeat (split; [assumption |]). exists rest. now rewrite Hstrip, Hafter. }
  induction s as [|x s IH]; simpl.
  - destruct (match_at p "") as [m'|] eqn:Hm; [| intros Heq; discriminate Heq].
    intros Heq. injection Heq as ->.
    destruct (Hat _ Hm) as [Hin [Hne [Hall [rest [Hs Hrest]]]]].
    repeat (split; [assumption |]). now exists "", rest.
  - destruct (match_at p (String x s)) as [m'|] eqn:Hm.
    + intros Heq. injection Heq as ->.
      destruct (Hat _ Hm) as [Hin [Hne [Hall [rest [Hs Hrest]]]]].
      repeat (split; [assumption |]). now exists "", rest.
    + intros Hsearch.
      destruct (IH Hsearch) as [Hin [Hne [Hall [before [rest [Hs Hrest]]]]]].
      repeat (split; [assumption |]). exists (String x before), rest.
      simpl. now rewrite <- Hs.
Qed.

Lemma search_none (p : pattern) (s : string) : search p s = None -> ~ occurs_in p s.
Proof.
  intros Hnone [before [a [c [after [Hin [Hc Hs]]]]]]. subst s.
  induction before as [|x before IH].
  - simpl in Hnone.
    assert (Hat : match_at p (lead p ++ a ++ sep p ++ String c after) <> None).
    { unfold match_at. rewrite strip_append. now apply alts_at_complete. }
    destruct (lead p ++ a ++ sep p ++ String c after) as [|y r];
      simpl in Hnone; destruct (match_at p _); congruence.
  - apply IH.
    change (String x before ++ lead p ++ a ++ sep p ++ String c after)
      with (String x (before ++ lead p ++ a ++ sep p ++ String c after)) in Hnone.
    simpl in Hnone. now destruct (match_at p _).
Qed.

(** [re.search] finds nothing exactly on the strings that do not hold the
    shape. *)
Lemma search_none_iff (p : pattern) (s : string) : search p s = None <-> ~ occurs_in p s.
Proof.
  split; [apply search_none |].
  intros Hno. destruct (search p s) as [m|] eqn:Hsearch; [| reflexivity].
  exfalso. apply Hno.
  destruct (search_some p m s Hsearch) as [Hin [Hne [Hall [before [rest [Hs _]]]]]].
  destruct (group2 m) as [|c id]; [contradiction |].
  simpl in Hall. apply andb_prop in Hall. destruct Hall as [Hc _].
  exists before, (group1 m), c, (id ++ rest). now repeat split.
Qed.

End Search.

(** ** The resolver *)

Section Resolver.
Import BaseService.

Lemma extract_id_cases (link : string) :
  _extract_id link
  = match Re.search sheets_re link with
    | Some m => Returns (Re.group2 m)
    | None =>
        match Re.search drive_re link with
        | Some m => Returns (Re.group2 m)
        | None =>
            match Re.search id_re link with
            | Some m => Returns (Re.group2 m)
            | None => Raises (ValueError "Invalid Google link")
            end
        end
    end.
Proof.
  unfold _extract_id, or_else.
  destruct (Re.search sheets_re link); [reflexivity |].
  destruct (Re.search drive_re link); [reflexivity |].
  destruct (Re.search id_re link); reflexivity.
Qed.

Lemma extract_id_logged_cases (link : string) :
  _extract_id_logged link
  = match Re.search sheets_re link with
    | Some m => ([Sheets], Returns (Re.group2 m))
    | None =>
        match Re.search drive_re link with
        | Some m => ([Sheets; Drive], Returns (Re.group2 m))
        | None =>
            match Re.search id_re link with
            | Some m => ([Sheets; Drive; IdParam], Returns (Re.group2 m))
            | None =>
                ([Sheets; Drive; IdParam], Raises (ValueError "Invalid Google link"))
            end
        end
    end.
Proof.
  unfold _extract_id_logged, or_else_logged, search_logged. simpl.
  destruct (Re.search sheets_re link); simpl; [reflexivity |].
  destruct (Re.search drive_re link); simpl; [reflexivity |].
  destruct (Re.search id_re link); reflexivity.
Qed.

Lemma search_group2 (p : Re.pattern) (s : string) (m : Re.Match) :
  Re.search p s = Some m ->
  Re.group2 m <> "" /\ all_chars (Re.cls p) (Re.group2 m) = true
  /\ occurs (Re.group2 m) s = true.
Proof.
  intros Hsearch.
  destruct (search_some p m s Hsearch) as [_ [Hne [Hall [before [rest [Hs _]]]]]].
  split; [exact Hne |]. split; [exact Hall |].
  subst s.
  replace (before ++ Re.lead p ++ Re.group1 m ++ Re.sep p ++ Re.group2 m ++ rest)
    with ((before ++ Re.lead p ++ Re.group1 m ++ Re.sep p) ++ Re.group2 m ++ rest)
    by (now rewrite !append_assoc).
  apply occurs_append.
Qed.

(** An identifier the resolver returns is never empty, is made of the
    allowed characters, and is a piece of the link. *)
Lemma extract_id_returns (link id : string) :
  _extract_id link = Returns id ->
  id <> "" /\ all_chars id_char id = true /\ occurs id link = true.
Proof.
  rewrite extract_id_cases.
  destruct (Re.search sheets_re link) as [m|] eqn:Hsheets.
  { intros Hid. injection Hid as <-. exact (search_group2 _ _ _ Hsheets). }
  destruct (Re.search drive_re link) as [m|] eqn:Hdrive.
  { intros Hid. injection Hid as <-. exact (search_group2 _ _ _ Hdrive). }
  destruct (Re.search id_re link) as [m|] eqn:Hid_re.
  { intros Hid. injection Hid as <-. exact (search_group2 _ _ _ Hid_re). }
  intros Hid. discriminate Hid.
Qed.

(** The second alternative of the drive expression is reached when the
    first one does not lead to a match; an empty identifier is no match; the
    leftmost match is the one returned. *)
Example drive_d_link :
  _extract_id "https://drive.google.com/drive/d/1A2b3C4d/view" = Returns "1A2b3C4d".
Proof. reflexivity. Qed.

Example empty_id_param :
  _extract_id "https://example.com/open?id=&x=1"
  = Raises (ValueError "Invalid Google link").
Proof. reflexivity. Qed.

Example leftmost_id_param :
  _extract_id "https://example.com/open?id=first&id=second" = Returns "first".
Proof. reflexivity. Qed.

(** C1: a link that both the spreadsheet expression and the [id=] expression
    match resolves to what the spreadsheet expression captured; the searches
    run in the order spreadsheet, drive, [id=], the first one that matches
    gives the result, and no search after it is run. *)
Theorem resolver_first_match_wins :
  (forall link m1 m3,
     Re.search sheets_re link = Some m1 -> Re.search id_re link = Some m3 ->
     _extract_id link = Returns (Re.group2 m1))
  /\ (forall link m,
        Re.search sheets_re link = Some m ->
        _extract_id_logged link = ([Sheets], Returns (Re.group2 m)))
  /\ (forall link m,
        Re.search sheets_re link = None -> Re.search drive_re link = Some m ->
        _extract_id_logged link = ([Sheets; Drive], Returns (Re.group2 m)))
  /\ (forall link m,
        Re.search sheets_re link = None -> Re.search drive_re link = None ->
        Re.search id_re link = Some m ->
        _extract_id_logged link = ([Sheets; Drive; IdParam], Returns (Re.group2 m)))
  /\ (forall link, snd (_extract_id_logged link) = _extract_id link).
Proof.
  split; [| split; [| split; [| split]]].
  - intros link m1 m3 H1 _. now rewrite extract_id_cases, H1.
  - intros link m H1. now rewrite extract_id_logged_cases, H1.
  - intros link m H1 H2. now rewrite extract_id_logged_cases, H1, H2.
  - intros link m H1 H2 H3. now rewrite extract_id_logged_cases, H1, H2, H3.
  - intros link. rewrite extract_id_logged_cases, extract_id_cases.
    destruct (Re.search sheets_re link); [reflexivity |].
    destruct (Re.search drive_re link); [reflexivity |].
    destruct (Re.search id_re link); reflexivity.
Qed.

Lemma resolver_first_match_wins_witness :
  _extract_id "https://docs.google.com/spreadsheets/d/1A2b3C4d/edit?id=other"
  = Returns "1A2b3C4d"
  /\ _extract_id_logged "https://drive.google.com/drive/folders/XyZ_9-8?id=other"
     = ([Sheets; Drive], Returns "XyZ_9-8").
Proof.
  split.
  - apply (proj1 resolver_first_match_wins _
             (Re.MkMatch "spreadsheets" "1A2b3C4d") (Re.MkMatch "id" "other"));
      reflexivity.
  - apply (proj1 (proj2 (proj2 resolver_first_match_wins)) _
             (Re.MkMatch "folders" "XyZ_9-8"));
      reflexivity.
Defined.

(** C4: the three links of the specification resolve to the identifier
    written in them, character for character. *)
Theorem resolver_literal_links :
  _extract_id "https://docs.google.com/spreadsheets/d/1A2b3C4d/edit" = Returns "1A2b3C4d"
  /\ _extract_id "https://drive.google.com/drive/folders/XyZ_9-8" = Returns "XyZ_9-8"
  /\ _extract_id "https://example.com/open?id=abc-123_XYZ" = Returns "abc-123_XYZ".
Proof. repeat split; vm_compute; reflexivity. Qed.

(** C5, as the code has it: on a link that none of the three expressions
    matches the resolver raises a ValueError whose message is the fixed text
    "Invalid Google link" (the link is not in it), and returns no identifier
    at all. *)
Theorem resolver_no_match_raises (link : string) :
  Re.search sheets_re link = None ->
  Re.search drive_re link = None ->
  Re.search id_re link = None ->
  _extract_id link = Raises (ValueError "Invalid Google link")
  /\ forall id, _extract_id link <> Returns id.
Proof.
  intros H1 H2 H3. rewrite extract_id_cases, H1, H2, H3.
  split; [reflexivity | discriminate].
Qed.

Lemma resolver_no_match_raises_witness :
  (_extract_id "https://example.com/no-match-here"
   = Raises (ValueError "Invalid Google link")
   /\ forall id, _extract_id "https://example.com/no-match-here" <> Returns id)
  /\ (_extract_id "https://drive.google.com/drive/u/0/folders/XyZ_9-8"
      = Raises (ValueError "Invalid Google link")
      /\ forall id,
           _extract_id "https://drive.google.com/drive/u/0/folders/XyZ_9-8"
           <> Returns id).
Proof. split; apply resolver_no_match_raises; reflexivity. Defined.

(** C5 as stated fails at the link of the specification: the error raised
    does not carry the link. *)
Lemma resolver_error_drops_link :
  _extract_id "https://example.com/no-match-here"
  = Raises (ValueError "Invalid Google link")
  /\ ~ (exists e,
          _extract_id "https://example.com/no-match-here" = Raises e
          /\ carries e "https://example.com/no-match-here" = true).
Proof.
  split; [reflexivity |].
  intros [e [Hraise Hcarries]]. vm_compute in Hraise. injection Hraise as <-.
  vm_compute in Hcarries. discriminate Hcarries.
Qed.

(** C9: a string that is no spreadsheet or drive link but holds [id=]
    followed by an allowed character resolves, to the run of allowed
    characters after an [id=]; so does one where [id=] is the tail of a longer
    parameter name, as in "uid=abc". *)
Theorem resolver_accepts_any_id_param :
  (forall link,
     Re.search sheets_re link = None ->
     Re.search drive_re link = None ->
     Re.occurs_in id_re link ->
     exists before id rest,
       _extract_id link = Returns id
       /\ id <> "" /\ all_chars id_char id = true
       /\ link = before ++ "id=" ++ id ++ rest /\ Re.run id_char rest = "")
  /\ _extract_id "uid=abc" = Returns "abc"
  /\ _extract_id "https://example.com/profile?uid=abc&tab=2" = Returns "abc".
Proof.
  split; [| split; vm_compute; reflexivity].
  intros link H1 H2 Hshape.
  destruct (Re.search id_re link) as [m|] eqn:H3.
  - destruct (search_some _ _ _ H3)
      as [Hin [Hne [Hall [before [rest [Hlink Hrest]]]]]].
    exists before, (Re.group2 m), rest.
    rewrite extract_id_cases, H1, H2, H3.
    repeat (split; [assumption || reflexivity |]).
    split; [| exact Hrest].
    destruct Hin as [Hg1|[]]. rewrite <- Hg1 in Hlink. exact Hlink.
  - apply search_none in H3. contradiction.
Qed.

Lemma resolver_accepts_any_id_param_witness :
  exists before id rest,
    _extract_id "uid=abc" = Returns id
    /\ id <> "" /\ all_chars id_char id = true
    /\ "uid=abc" = before ++ "id=" ++ id ++ rest /\ Re.run id_char rest = "".
Proof.
  apply (proj1 resolver_accepts_any_id_param); [reflexivity | reflexivity |].
  exists "u", "id", "a"%char, "bc". repeat split. now left.
Defined.

(** ** The (link, id) pair *)

Lemma if_not_truthy {A : Type} (v : string) (absent : A) (present : string -> A) :
  truthy (Some v) = true -> if_not (Some v) absent present = present v.
Proof. destruct v; [discriminate | reflexivity]. Qed.

Lemma if_not_falsy {A : Type} (v : option string) (absent : A) (present : string -> A) :
  truthy v = false -> if_not v absent present = absent.
Proof. destruct v as [[|c s]|]; [reflexivity | discriminate | reflexivity]. Qed.

Lemma truthy_nonempty (v : string) : v <> "" -> truthy (Some v) = true.
Proof. destruct v; [contradiction | reflexivity]. Qed.

Lemma get_file_id_precedence : link_id_precedence _get_file_id.
Proof.
  unfold link_id_precedence, _get_file_id. split; [| split].
  - intros link id Hid. now rewrite if_not_truthy.
  - intros link id Hlink Hid. rewrite !if_not_falsy by assumption. eauto.
  - intros link id Hlink Hid. rewrite if_not_falsy by assumption.
    now rewrite if_not_truthy.
Qed.

Lemma get_file_id_returns (link id : option string) (r : string) :
  _get_file_id link id = Returns r -> r <> "".
Proof.
  unfold _get_file_id.
  destruct id as [[|c s]|]; simpl.
  2: { intros Hr. injection Hr as <-. discriminate. }
  all: destruct link as [[|c s]|]; simpl; try (intros Hr; discriminate Hr);
    intros Hr; now apply extract_id_returns in Hr.
Qed.

(** The second test of [get_sheet] never fires: [_get_file_id] has returned a
    non-empty identifier or raised. *)
Lemma get_sheet_get_file_id (link id : option string) :
  SheetsService.get_sheet link id = _get_file_id link id.
Proof.
  unfold SheetsService.get_sheet.
  destruct (_get_file_id link id) as [r|e] eqn:Hr; cbn [bind]; [| reflexivity].
  apply get_file_id_returns in Hr.
  now rewrite if_not_truthy by now apply truthy_nonempty.
Qed.

(** [copy_file] never sends a [folder_id] it was given: the name it reads is
    assigned only when [folder_id] is missing. *)
Example copy_file_with_folder_id :
  DriveService.copy_file None (Some "1A2b3C4d") None (Some "XyZ_9-8")
  = Raises UnboundLocalError.
Proof. reflexivity. Qed.

End Resolver.

(** ** The column-name loop *)

Section ColumnName.
Import SheetsService ColumnCodec.

Lemma column_name_loop_pos (idx : Z) (result : string) :
  0 < idx ->
  column_name_loop idx result
  = column_name_loop ((idx - 1) / 26) (result ++ String (letter_of idx) "").
Proof.
  intros Hpos. rewrite column_name_loop_equation_1.
  destruct (Z_gt_dec idx 0) as [Hp|Hn]; [reflexivity | lia].
Qed.

Lemma column_name_loop_nonpos (idx : Z) (result : string) :
  idx <= 0 -> column_name_loop idx result = result.
Proof.
  intros Hle. rewrite column_name_loop_equation_1.
  destruct (Z_gt_dec idx 0) as [Hp|Hn]; [lia | reflexivity].
Qed.

Lemma quotient_smaller (idx : Z) : 0 < idx -> 0 <= (idx - 1) / 26 < idx.
Proof.
  intros Hpos. split.
  - apply Z.div_pos; lia.
  - apply Z.div_lt_upper_bound; lia.
Qed.

(** The loop pushes the letters of [idx] onto whatever [result] holds. *)
Lemma reverse_column_name_loop (idx : Z) :
  forall result, reverse (column_name_loop idx result) = column_label idx ++ reverse result.
Proof.
  pattern idx. apply (well_founded_induction (Z.lt_wf 0)). clear idx.
  intros idx IH result. unfold column_label.
  destruct (Z_le_gt_dec idx 0) as [Hle|Hgt].
  - now rewrite (column_name_loop_nonpos idx result), (column_name_loop_nonpos idx "").
  - rewrite (column_name_loop_pos idx result), (column_name_loop_pos idx "") by lia.
    pose proof (quotient_smaller idx ltac:(lia)) as Hq.
    rewrite (IH _ Hq (result ++ String (letter_of idx) "")).
    rewrite (IH _ Hq ("" ++ String (letter_of idx) "")).
    simpl. rewrite reverse_snoc, append_assoc. reflexivity.
Qed.

Lemma column_label_nonpos (idx : Z) : idx <= 0 -> column_label idx = "".
Proof. intros Hle. unfold column_label. now rewrite column_name_loop_nonpos. Qed.

Lemma column_label_pos (idx : Z) :
  0 < idx ->
  column_label idx = column_label ((idx - 1) / 26) ++ String (letter_of idx) "".
Proof.
  intros Hpos. unfold column_label at 1.
  rewrite column_name_loop_pos by assumption.
  rewrite reverse_column_name_loop. reflexivity.
Qed.

Lemma letter_index_range (idx : Z) : 0 <= (idx - 1) mod 26 < 26.
Proof. apply Z.mod_pos_bound. lia. Qed.

(** [chr] is only asked for the code points of A..Z. *)
Lemma ord_letter_of (idx : Z) : ord (letter_of idx) = (idx - 1) mod 26 + 65.
Proof.
  pose proof (letter_index_range idx) as Hr.
  unfold letter_of, ord. change (Z.of_N (N_of_ascii "A")) with 65.
  rewrite N_ascii_embedding by lia. lia.
Qed.

Lemma upper_letter_of (idx : Z) : upper (letter_of idx) = true.
Proof.
  pose proof (ord_letter_of idx) as Ho. pose proof (letter_index_range idx) as Hr.
  unfold ord in Ho. unfold upper, between.
  change (N_of_ascii "A") with 65%N. change (N_of_ascii "Z") with 90%N.
  apply andb_true_intro. split; apply N.leb_le; lia.
Qed.

Lemma column_label_upper (idx : Z) : all_chars upper (column_label idx) = true.
Proof.
  pattern idx. apply (well_founded_induction (Z.lt_wf 0)). clear idx.
  intros idx IH. destruct (Z_le_gt_dec idx 0) as [Hle|Hgt].
  - now rewrite column_label_nonpos.
  - rewrite column_label_pos, all_chars_append by lia.
    rewrite (IH _ (quotient_smaller idx ltac:(lia))). simpl.
    now rewrite upper_letter_of.
Qed.

Lemma column_label_nonempty (idx : Z) : 1 <= idx -> column_label idx <> "".
Proof.
  intros Hpos Hempty. rewrite column_label_pos in Hempty by lia.
  apply append_eq_empty in Hempty. destruct Hempty as [_ Habs]. discriminate Habs.
Qed.

Lemma label_value_from_append (a b : string) :
  forall acc, label_value_from acc (a ++ b) = label_value_from (label_value_from acc a) b.
Proof. induction a as [|c a IH]; intros acc; simpl; [reflexivity | apply IH]. Qed.

Lemma label_value_snoc (s : string) (c : ascii) :
  label_value (s ++ String c "") = label_value s * 26 + (ord c - 65 + 1).
Proof. unfold label_value. rewrite label_value_from_append. reflexivity. Qed.

(** Reading a label back gives its index: the loop writes bijective base 26. *)
Lemma label_value_column_label (idx : Z) : 0 <= idx -> label_value (column_label idx) = idx.
Proof.
  pattern idx. apply (well_founded_induction (Z.lt_wf 0)). clear idx.
  intros idx IH Hnonneg. destruct (Z.eq_dec idx 0) as [->|Hnz].
  - reflexivity.
  - pose proof (quotient_smaller idx ltac:(lia)) as Hq.
    rewrite column_label_pos, label_value_snoc, ord_letter_of by lia.
    rewrite (IH _ Hq) by lia.
    pose proof (Z.div_mod (idx - 1) 26 ltac:(lia)). lia.
Qed.

Lemma get_column_name_label (idx : Z) : __get_column_name idx = Returns (column_label idx).
Proof. reflexivity. Qed.

Lemma labelToIndex_column_label (idx : Z) :
  1 <= idx -> labelToIndex (column_label idx) = Returns idx.
Proof.
  intros Hpos. unfold labelToIndex.
  pose proof (column_label_nonempty idx Hpos) as Hne.
  destruct (column_label idx) as [|c s] eqn:Hlabel; [contradiction |].
  rewrite <- Hlabel, column_label_upper, label_value_column_label by lia.
  reflexivity.
Qed.

Lemma labelToIndex_invalid (label : string) :
  all_chars upper label = false -> labelToIndex label = Raises (InvalidLabelError label).
Proof.
  intros Hbad. unfold labelToIndex. destruct label as [|c s]; [reflexivity |].
  now rewrite Hbad.
Qed.

(** The [for] loop of [__get_column_names] appends the labels to [output]. *)
Lemma column_names_loop (idxs : list Z) :
  forall output,
    for_each idxs
      (fun output i => name <- __get_column_name i ;; Returns (output ++ [name])%list)
      output
    = Returns (output ++ map column_label idxs)%list.
Proof.
  induction idxs as [|i idxs IH]; intros output; simpl.
  - now rewrite app_nil_r.
  - rewrite IH, <- app_assoc. reflexivity.
Qed.

Lemma get_column_names_labels (columns_num : Z) :
  __get_column_names columns_num
  = Returns (map column_label (range 1 (columns_num + 1))).
Proof. unfold __get_column_names. now rewrite column_names_loop. Qed.

Lemma range_length (lo hi : Z) : List.length (range lo hi) = Z.to_nat (hi - lo).
Proof. unfold range. now rewrite length_map, length_seq. Qed.

Lemma range_nth (lo hi : Z) (k : nat) :
  (k < Z.to_nat (hi - lo))%nat -> nth_error (range lo hi) k = Some (lo + Z.of_nat k).
Proof.
  intros Hk. unfold range.
  rewrite nth_error_map, nth_error_seq.
  destruct (Nat.ltb_spec k (Z.to_nat (hi - lo))); [reflexivity | lia].
Qed.

(** C2: the conversion at the boundaries of bijective base 26:
    index 1 is "A", 26 is "Z", 27 is "AA", 52 is "AZ", 702 is "ZZ" and 703 is
    "AAA". *)
Theorem column_name_boundary_cases :
  __get_column_name 1 = Returns "A"
  /\ __get_column_name 26 = Returns "Z"
  /\ __get_column_name 27 = Returns "AA"
  /\ __get_column_name 52 = Returns "AZ"
  /\ __get_column_name 702 = Returns "ZZ"
  /\ __get_column_name 703 = Returns "AAA".
Proof. repeat split; vm_compute; reflexivity. Qed.

(** C3: reading back the label of any index from 1 to 10000 with the
    specification's [labelToIndex] gives the index again; [labelToIndex] fails
    with InvalidLabelError on the empty label and on a label that has a
    character outside A-Z. *)
Theorem label_round_trip :
  (forall n, 1 <= n <= 10000 ->
     (label <- __get_column_name n ;; labelToIndex label) = Returns n)
  /\ labelToIndex "" = Raises (InvalidLabelError "")
  /\ (forall label, all_chars upper label = false ->
        labelToIndex label = Raises (InvalidLabelError label)).
Proof.
  split; [| split].
  - intros n [Hlo _]. rewrite get_column_name_label. simpl.
    now apply labelToIndex_column_label.
  - reflexivity.
  - apply labelToIndex_invalid.
Qed.

Lemma label_round_trip_witness :
  (label <- __get_column_name 10000 ;; labelToIndex label) = Returns 10000
  /\ labelToIndex "a1" = Raises (InvalidLabelError "a1").
Proof.
  split.
  - apply (proj1 label_round_trip). lia.
  - apply (proj2 (proj2 label_round_trip)). reflexivity.
Defined.

(** C6, as the code has it: for an index of 0 or less the conversion raises
    nothing and returns the empty string (the loop body never runs); for an
    index of 1 or more it returns a non-empty label. *)
Theorem column_name_of_nonpositive :
  (forall idx, idx <= 0 -> __get_column_name idx = Returns "")
  /\ (forall idx, 1 <= idx ->
        exists label, __get_column_name idx = Returns label /\ label <> "").
Proof.
  split.
  - intros idx Hle. rewrite get_column_name_label. now rewrite column_label_nonpos.
  - intros idx Hpos. exists (column_label idx). split; [reflexivity |].
    now apply column_label_nonempty.
Qed.

Lemma column_name_of_nonpositive_witness :
  __get_column_name (-7) = Returns ""
  /\ exists label, __get_column_name 28 = Returns label /\ label <> "".
Proof.
  split.
  - apply (proj1 column_name_of_nonpositive). lia.
  - apply (proj2 column_name_of_nonpositive). lia.
Defined.

(** C6 as stated fails at index 0: the call returns [''] and is no error. *)
Lemma column_name_zero_returns :
  __get_column_name 0 = Returns ""
  /\ ~ (forall idx, idx <= 0 -> exists e, __get_column_name idx = Raises e).
Proof.
  split; [reflexivity |].
  intros Hclaim. destruct (Hclaim 0 ltac:(lia)) as [e He]. discriminate He.
Qed.

(** C7, as the code has it: for a count of 0 or more the call returns exactly
    the labels of 1, ..., count in increasing order of the index (["A"; "B"; "C"]
    for 3, nothing for 0); for a negative count it raises nothing and returns
    the empty list. *)
Theorem column_names_in_order :
  (forall count, 0 <= count ->
     exists names,
       __get_column_names count = Returns names
       /\ List.length names = Z.to_nat count
       /\ forall i, 1 <= i <= count ->
            option_map Returns (nth_error names (Z.to_nat (i - 1)))
            = Some (__get_column_name i))
  /\ (forall count, count < 0 -> __get_column_names count = Returns [])
  /\ __get_column_names 3 = Returns ["A"; "B"; "C"]
  /\ __get_column_names 0 = Returns [].
Proof.
  split; [| split; [| split]].
  - intros count Hcount. exists (map column_label (range 1 (count + 1))).
    split; [apply get_column_names_labels |]. split.
    + rewrite length_map, range_length. f_equal. lia.
    + intros i Hi. rewrite nth_error_map, range_nth by lia.
      rewrite get_column_name_label.
      replace (1 + Z.of_nat (Z.to_nat (i - 1))) with i by lia. reflexivity.
  - intros count Hneg. rewrite get_column_names_labels. unfold range.
    replace (Z.to_nat (count + 1 - 1)) with 0%nat by lia. reflexivity.
  - vm_compute. reflexivity.
  - vm_compute. reflexivity.
Qed.

Lemma column_names_in_order_witness :
  (exists names,
     __get_column_names 30 = Returns names
     /\ List.length names = Z.to_nat 30
     /\ forall i, 1 <= i <= 30 ->
          option_map Returns (nth_error names (Z.to_nat (i - 1)))
          = Some (__get_column_name i))
  /\ __get_column_names (-4) = Returns [].
Proof.
  split.
  - apply (proj1 column_names_in_order). lia.
  - apply (proj1 (proj2 column_names_in_order)). lia.
Defined.

(** C7 as stated fails at count -1: [range(1, 0)] is empty, the call returns
    [[]] and is no error. *)
Lemma column_names_negative_returns :
  __get_column_names (-1) = Returns []
  /\ ~ (forall count, count < 0 -> exists e, __get_column_names count = Raises e).
Proof.
  split; [vm_compute; reflexivity |].
  intros Hclaim. destruct (Hclaim (-1) ltac:(lia)) as [e He].
  vm_compute in He. discriminate He.
Qed.

(** C8: the label of a positive index is a non-empty string of letters A-Z,
    and two positive indices with the same label are equal. *)
Theorem column_name_injective :
  (forall idx, 1 <= idx ->
     exists label,
       __get_column_name idx = Returns label
       /\ label <> "" /\ all_chars upper label = true)
  /\ (forall i j, 1 <= i -> 1 <= j ->
        __get_column_name i = __get_column_name j -> i = j).
Proof.
  split.
  - intros idx Hpos. exists (column_label idx).
    split; [reflexivity |]. split; [now apply column_label_nonempty |].
    apply column_label_upper.
  - intros i j Hi Hj Heq. rewrite !get_column_name_label in Heq.
    injection Heq as Hlabels.
    rewrite <- (label_value_column_label i), <- (label_value_column_label j) by lia.
    now rewrite Hlabels.
Qed.

Lemma column_name_injective_witness :
  (exists label,
     __get_column_name 18278 = Returns label
     /\ label <> "" /\ all_chars upper label = true)
  /\ 27 = 26 + 1.
Proof.
  split.
  - apply (proj1 column_name_injective). lia.
  - apply (proj2 column_name_injective 27 (26 + 1)); [lia | lia | reflexivity].
Defined.

End ColumnName.

(** * Further properties of the code *)

(** ** What the resolver returns and what it rejects *)

Section ResolverMore.
Import BaseService.

Lemma extract_id_found (link id : string) :
  _extract_id link = Returns id ->
  exists sh m, Re.search (re_of sh) link = Some m /\ Re.group2 m = id.
Proof.
  rewrite extract_id_cases.
  destruct (Re.search sheets_re link) as [m|] eqn:Hsheets.
  { intros Hid. injection Hid as <-. now exists Sheets, m. }
  destruct (Re.search drive_re link) as [m|] eqn:Hdrive.
  { intros Hid. injection Hid as <-. now exists Drive, m. }
  destruct (Re.search id_re link) as [m|] eqn:Hid_re.
  { intros Hid. injection Hid as <-. now exists IdParam, m. }
  intros Hid. discriminate Hid.
Qed.

Lemma sep_nonempty (sh : shape) : Re.sep (re_of sh) <> "".
Proof. destruct sh; discriminate. Qed.

(** X1: The identifier the resolver returns is the whole run of allowed characters
    at its place in the link: it is not empty, something of the link stands
    before it, and what follows it does not start with an allowed character. *)
Theorem resolved_id_is_whole_run (link id : string) :
  _extract_id link = Returns id ->
  id <> "" /\ all_chars id_char id = true
  /\ exists before rest,
       link = before ++ id ++ rest /\ before <> "" /\ Re.run id_char rest = "".
Proof.
  intros Hid. destruct (extract_id_found link id Hid) as [sh [m [Hsearch <-]]].
  destruct (search_some _ _ _ Hsearch)
    as [_ [Hne [Hall [before [rest [Hlink Hrest]]]]]].
  split; [exact Hne |]. split; [destruct sh; exact Hall |].
  exists (before ++ Re.lead (re_of sh) ++ Re.group1 m ++ Re.sep (re_of sh)), rest.
  split; [| split].
  - rewrite Hlink. now rewrite !append_assoc.
  - intros Hempty.
    apply append_eq_empty in Hempty. destruct Hempty as [_ Hempty].
    apply append_eq_empty in Hempty. destruct Hempty as [_ Hempty].
    apply append_eq_empty in Hempty. destruct Hempty as [_ Hempty].
    now apply (sep_nonempty sh).
  - destruct sh; exact Hrest.
Qed.

Lemma resolved_id_is_whole_run_witness :
  "XyZ_9-8" <> "" /\ all_chars id_char "XyZ_9-8" = true
  /\ exists before rest,
       "https://drive.google.com/drive/folders/XyZ_9-8?usp=sharing"
       = before ++ "XyZ_9-8" ++ rest
       /\ before <> "" /\ Re.run id_char rest = "".
Proof. apply resolved_id_is_whole_run. reflexivity. Defined.

Lemma extract_id_raises (link : string) (e : exn) :
  _extract_id link = Raises e -> e = ValueError "Invalid Google link".
Proof.
  rewrite extract_id_cases.
  destruct (Re.search sheets_re link); [intros He; discriminate He |].
  destruct (Re.search drive_re link); [intros He; discriminate He |].
  destruct (Re.search id_re link); intros He; [discriminate He |].
  now injection He as <-.
Qed.

(** X2: The resolver fails on exactly the links that hold none of the three
    shapes, and "Invalid Google link" is the only error it raises. *)
Theorem resolver_rejects_exactly :
  forall link,
    (_extract_id link = Raises (ValueError "Invalid Google link")
     <-> ~ Re.occurs_in sheets_re link /\ ~ Re.occurs_in drive_re link
         /\ ~ Re.occurs_in id_re link)
    /\ (forall e, _extract_id link = Raises e -> e = ValueError "Invalid Google link").
Proof.
  intros link. rewrite extract_id_cases. split; [split |].
  - intros Hraise.
    destruct (Re.search sheets_re link) eqn:H1; [discriminate Hraise |].
    destruct (Re.search drive_re link) eqn:H2; [discriminate Hraise |].
    destruct (Re.search id_re link) eqn:H3; [discriminate Hraise |].
    repeat split; now apply search_none.
  - intros [H1 [H2 H3]].
    apply search_none_iff in H1, H2, H3. now rewrite H1, H2, H3.
  - intros e He. apply (extract_id_raises link). now rewrite extract_id_cases.
Qed.

Lemma resolver_rejects_exactly_witness :
  (~ Re.occurs_in sheets_re "https://example.com/no-match-here"
   /\ ~ Re.occurs_in drive_re "https://example.com/no-match-here"
   /\ ~ Re.occurs_in id_re "https://example.com/no-match-here")
  /\ ValueError "Invalid Google link" = ValueError "Invalid Google link".
Proof.
  split.
  - apply (proj1 (resolver_rejects_exactly "https://example.com/no-match-here")).
    reflexivity.
  - apply (proj2 (resolver_rejects_exactly "https://example.com/no-match-here")).
    reflexivity.
Defined.

Lemma lacks_append (x : ascii) (a b : string) :
  lacks x (a ++ b) = lacks x a && lacks x b.
Proof. apply all_chars_append. Qed.

Lemma lacks_of_class (cls : ascii -> bool) (x : ascii) (s : string) :
  cls x = false -> all_chars cls s = true -> lacks x s = true.
Proof.
  intros Hx. unfold lacks. induction s as [|c s IH]; simpl; [reflexivity |].
  intros Hall. apply andb_prop in Hall. destruct Hall as [Hc Hs].
  rewrite (IH Hs), andb_true_r.
  destruct (Ascii.eqb_spec c x) as [->|_]; [congruence | reflexivity].
Qed.

(** A string without a character that the literals of an expression need is
    not matched anywhere. *)
Lemma search_lacking (p : Re.pattern) (x : ascii) (s : string) :
  lacks x (Re.lead p ++ Re.sep p) = false -> lacks x s = true -> Re.search p s = None.
Proof.
  intros Hneeds Hlacks.
  destruct (Re.search p s) as [m|] eqn:Hsearch; [| reflexivity].
  destruct (search_some _ _ _ Hsearch) as [_ [_ [_ [before [rest [Hs _]]]]]].
  rewrite Hs in Hlacks. rewrite !lacks_append in *.
  repeat (apply andb_prop in Hlacks; destruct Hlacks as [? Hlacks]).
  destruct (lacks x (Re.lead p)), (lacks x (Re.sep p)); simpl in *; congruence.
Qed.

Lemma identifier_unmatched (s : string) :
  all_chars id_char s = true -> _extract_id s = Raises (ValueError "Invalid Google link").
Proof.
  intros Hid. rewrite extract_id_cases.
  rewrite (search_lacking sheets_re "/" s), (search_lacking drive_re "/" s),
    (search_lacking id_re "=" s);
    (reflexivity || now apply (lacks_of_class id_char)).
Qed.

(** X3: An identifier is never a link: on a string of allowed characters, and so
    on anything the resolver itself has returned, the resolver fails. *)
Theorem identifier_is_no_link :
  (forall s, all_chars id_char s = true ->
     _extract_id s = Raises (ValueError "Invalid Google link"))
  /\ (forall link id, _extract_id link = Returns id ->
        _extract_id id = Raises (ValueError "Invalid Google link")).
Proof.
  split; [exact identifier_unmatched |].
  intros link id Hid. apply identifier_unmatched.
  now apply (extract_id_returns link).
Qed.

Lemma identifier_is_no_link_witness :
  _extract_id "1A2b3C4d" = Raises (ValueError "Invalid Google link")
  /\ _extract_id "XyZ_9-8" = Raises (ValueError "Invalid Google link").
Proof.
  split.
  - apply (proj1 identifier_is_no_link). reflexivity.
  - apply (proj2 identifier_is_no_link "https://drive.google.com/drive/folders/XyZ_9-8").
    reflexivity.
Defined.

Lemma get_file_id_raises (link id : option string) (e : exn) :
  _get_file_id link id = Raises e ->
  e = ValueError "Either file_link or file_id must be provided."
  \/ e = ValueError "Invalid Google link".
Proof.
  unfold _get_file_id.
  destruct id as [[|c s]|]; simpl; try (intros He; discriminate He);
    destruct link as [[|c' s']|]; simpl; intros He;
    try (injection He as <-; now left);
    right; now apply extract_id_raises in He.
Qed.

(** X4: [_get_file_id] never hands an empty identifier to a request: what it returns
    is the non-empty [file_id] it was given or a non-empty run of allowed
    characters from the link.  So the second test of [get_sheet] is dead code:
    its error is never raised. *)
Theorem resolved_file_id_nonempty :
  (forall link id r,
     _get_file_id link id = Returns r ->
     r <> ""
     /\ (id = Some r \/ (truthy id = false /\ all_chars id_char r = true)))
  /\ (forall link id,
        SheetsService.get_sheet link id
        <> Raises (ValueError "Either link or sheet_id must be provided.")).
Proof.
  split.
  - intros link id r Hr. split; [now apply (get_file_id_returns link id) |].
    unfold _get_file_id in Hr.
    destruct id as [[|c s]|]; simpl in Hr.
    2: { injection Hr as <-. now left. }
    all: right; split; [reflexivity |];
      destruct link as [[|c s]|]; simpl in Hr; try discriminate Hr;
      now apply extract_id_returns in Hr.
  - intros link id Hraise. rewrite get_sheet_get_file_id in Hraise.
    apply get_file_id_raises in Hraise. destruct Hraise; discriminate.
Qed.

Lemma resolved_file_id_nonempty_witness :
  "1A2b3C4d" <> ""
  /\ (Some "" = Some "1A2b3C4d"
      \/ (truthy (Some "") = false /\ all_chars id_char "1A2b3C4d" = true)).
Proof.
  apply (proj1 resolved_file_id_nonempty
           (Some "https://docs.google.com/spreadsheets/d/1A2b3C4d/edit") (Some "")).
  reflexivity.
Defined.

End ResolverMore.

(** ** Links cut at their slashes *)

Section Segments.
Import BaseService.

Lemma segments_nonempty (s : string) : segments s <> [].
Proof.
  induction s as [|c s IH]; simpl; [discriminate |].
  destruct (Ascii.eqb c "/"); [discriminate |].
  destruct (segments s); discriminate.
Qed.

Lemma segments_slashfree (a : string) : lacks "/" a = true -> segments a = [a].
Proof.
  unfold lacks. induction a as [|c a IH]; simpl; [reflexivity |].
  intros Hlacks. apply andb_prop in Hlacks. destruct Hlacks as [Hc Ha].
  apply negb_true_iff in Hc. now rewrite Hc, (IH Ha).
Qed.

Lemma segments_join (x y : string) :
  segments (x ++ String "/" y) = (segments x ++ segments y)%list.
Proof.
  induction x as [|c x IH]; simpl; [reflexivity |].
  rewrite IH. destruct (Ascii.eqb c "/"); [reflexivity |].
  pose proof (segments_nonempty x) as Hne.
  destruct (segments x) as [|seg rest]; [contradiction | reflexivity].
Qed.

Lemma segments_first (c : ascii) (s : string) :
  Ascii.eqb c "/" = false ->
  exists seg rest, segments (String c s) = String c seg :: rest.
Proof.
  intros Hc. simpl. rewrite Hc.
  destruct (segments s) as [|seg rest]; eauto.
Qed.

Lemma windows3_found (f : string -> string -> string -> bool) (a b c : string)
    (post : list string) :
  f a b c = true ->
  forall pre, windows3 f (pre ++ a :: b :: c :: post) = true.
Proof.
  intros Hf. induction pre as [|x pre IH].
  - simpl. now rewrite Hf.
  - change ((x :: pre) ++ a :: b :: c :: post)%list
      with (x :: (pre ++ a :: b :: c :: post))%list.
    simpl. rewrite IH.
    destruct (pre ++ a :: b :: c :: post)%list as [|y [|z l]];
      [discriminate IH | discriminate IH |].
    apply orb_true_r.
Qed.

(** A slash, a segment, a slash, a segment, a slash and one more character:
    the three show up as consecutive segments of the whole string. *)
Lemma segments_of_shape (before s1 s2 after : string) (c : ascii) :
  lacks "/" s1 = true -> lacks "/" s2 = true -> Ascii.eqb c "/" = false ->
  exists pre post seg,
    segments (before ++ String "/" (s1 ++ String "/" (s2 ++ String "/" (String c after))))
    = (pre ++ s1 :: s2 :: String c seg :: post)%list.
Proof.
  intros H1 H2 Hc.
  destruct (segments_first c after Hc) as [seg [post Hseg]].
  exists (segments before), post, seg.
  now rewrite !segments_join, Hseg, (segments_slashfree s1), (segments_slashfree s2).
Qed.

Lemma id_char_no_slash (c : ascii) : id_char c = true -> Ascii.eqb c "/" = false.
Proof.
  intros Hc. destruct (Ascii.eqb_spec c "/") as [->|_]; [discriminate Hc | reflexivity].
Qed.

Lemma sheets_needs_window (link : string) (m : Re.Match) :
  Re.search sheets_re link = Some m -> windows3 sheets_window (segments link) = true.
Proof.
  intros Hsearch.
  destruct (search_some _ _ _ Hsearch) as [Hin [Hne [Hall [before [rest [Hlink _]]]]]].
  destruct (Re.group2 m) as [|c id]; [contradiction |].
  simpl in Hall. apply andb_prop in Hall. destruct Hall as [Hc _].
  assert (Hg1 : lacks "/" (Re.group1 m) = true
                /\ in_list (Re.group1 m) ["spreadsheets"; "presentation"] = true).
  { destruct Hin as [<-|[<-|[]]]; split; reflexivity. }
  destruct Hg1 as [Hfree Hlisted].
  destruct (segments_of_shape before (Re.group1 m) "d" (id ++ rest) c Hfree eq_refl
              (id_char_no_slash c Hc)) as [pre [post [seg Hsegs]]].
  rewrite Hlink.
  change (before ++ Re.lead sheets_re ++ Re.group1 m ++ Re.sep sheets_re
            ++ String c id ++ rest)
    with (before ++ String "/" (Re.group1 m
            ++ String "/" ("d" ++ String "/" (String c (id ++ rest))))).
  rewrite Hsegs. apply windows3_found.
  unfold sheets_window. rewrite Hlisted. simpl. exact Hc.
Qed.

Lemma drive_needs_window (link : string) (m : Re.Match) :
  Re.search drive_re link = Some m -> windows3 drive_window (segments link) = true.
Proof.
  intros Hsearch.
  destruct (search_some _ _ _ Hsearch) as [Hin [Hne [Hall [before [rest [Hlink _]]]]]].
  destruct (Re.group2 m) as [|c id]; [contradiction |].
  simpl in Hall. apply andb_prop in Hall. destruct Hall as [Hc _].
  assert (Hg1 : lacks "/" (Re.group1 m) = true
                /\ in_list (Re.group1 m) ["folders"; "d"] = true).
  { destruct Hin as [<-|[<-|[]]]; split; reflexivity. }
  destruct Hg1 as [Hfree Hlisted].
  destruct (segments_of_shape before "drive" (Re.group1 m) (id ++ rest) c eq_refl Hfree
              (id_char_no_slash c Hc)) as [pre [post [seg Hsegs]]].
  rewrite Hlink.
  change (before ++ Re.lead drive_re ++ Re.group1 m ++ Re.sep drive_re
            ++ String c id ++ rest)
    with (before ++ String "/" ("drive"
            ++ String "/" (Re.group1 m ++ String "/" (String c (id ++ rest))))).
  rewrite Hsegs. apply windows3_found.
  unfold drive_window. rewrite Hlisted. simpl. exact Hc.
Qed.

Lemma sheets_unmatched (link : string) :
  windows3 sheets_window (segments link) = false -> Re.search sheets_re link = None.
Proof.
  intros Hno. destruct (Re.search sheets_re link) as [m|] eqn:Hsearch; [| reflexivity].
  apply sheets_needs_window in Hsearch. congruence.
Qed.

Lemma drive_unmatched (link : string) :
  windows3 drive_window (segments link) = false -> Re.search drive_re link = None.
Proof.
  intros Hno. destruct (Re.search drive_re link) as [m|] eqn:Hsearch; [| reflexivity].
  apply drive_needs_window in Hsearch. congruence.
Qed.

End Segments.

(** ** The Drive methods *)

Section DriveMore.
Import BaseService.

Lemma reverse_append (a b : string) : reverse (a ++ b) = reverse b ++ reverse a.
Proof.
  induction a as [|c a IH]; simpl; [now rewrite append_empty_r |].
  now rewrite IH, append_assoc.
Qed.

Lemma lacks_holding (x : ascii) (a b : string) : lacks x (a ++ String x b) = false.
Proof.
  rewrite lacks_append. unfold lacks at 2. simpl. rewrite Ascii.eqb_refl.
  apply andb_false_r.
Qed.

(** A string has one way of being cut at a character that its two sides lack. *)
Lemma cut_unique (x : ascii) (a b : string) :
  lacks x a = true -> lacks x b = true ->
  forall a' b', a' ++ String x b' = a ++ String x b -> a' = a.
Proof.
  intros Ha Hb. induction a as [|c a IH]; intros a' b' Hcut.
  - destruct a' as [|c' a']; [reflexivity |].
    simpl in Hcut. injection Hcut as -> Hrest.
    rewrite <- Hrest, lacks_holding in Hb. discriminate Hb.
  - unfold lacks in Ha. simpl in Ha. apply andb_prop in Ha. destruct Ha as [Hc Ha].
    destruct a' as [|c' a']; simpl in Hcut; injection Hcut as -> Hrest.
    + rewrite Ascii.eqb_refl in Hc. discriminate Hc.
    + f_equal. now apply (IH Ha a' b').
Qed.

(** With a single [=] in the string, the [id=] expression needs [id] right
    before it. *)
Lemma id_param_unmatched (a b : string) :
  lacks "=" a = true -> lacks "=" b = true ->
  strip "di" (reverse a) = None ->
  Re.search id_re (a ++ String "=" b) = None.
Proof.
  intros Ha Hb Hend.
  destruct (Re.search id_re (a ++ String "=" b)) as [m|] eqn:Hsearch; [| reflexivity].
  destruct (search_some _ _ _ Hsearch) as [Hin [_ [_ [before [rest [Hlink _]]]]]].
  destruct Hin as [Hg1|[]]. rewrite <- Hg1 in Hlink.
  change (before ++ Re.lead id_re ++ "id" ++ Re.sep id_re ++ Re.group2 m ++ rest)
    with (before ++ "id" ++ String "=" (Re.group2 m ++ rest)) in Hlink.
  rewrite <- append_assoc in Hlink. symmetry in Hlink.
  apply (cut_unique "=" a b Ha Hb) in Hlink. subst a.
  rewrite reverse_append in Hend. discriminate Hend.
Qed.

Lemma digits_not_drive (n : string) : all_chars digit n = true -> String.eqb n "drive" = false.
Proof.
  intros Hn. destruct (String.eqb_spec n "drive") as [->|_]; [discriminate Hn | reflexivity].
Qed.

(** X5: The layout the source marks as to be fixed,
    [https://drive.google.com/drive/u/<n>/folders/<id>]: the resolver rejects
    every such link, whatever the account number and the identifier are. *)
Theorem account_folder_link_rejected (n id : string) :
  all_chars digit n = true -> all_chars id_char id = true ->
  _extract_id ("https://drive.google.com/drive/u/" ++ n ++ "/folders/" ++ id)
  = Raises (ValueError "Invalid Google link").
Proof.
  intros Hn Hid.
  assert (Hn_free : lacks "/" n = true) by now apply (lacks_of_class digit).
  assert (Hid_free : lacks "/" id = true) by now apply (lacks_of_class id_char).
  assert (Hsegs : segments ("https://drive.google.com/drive/u/" ++ n ++ "/folders/" ++ id)
                  = ["https:"; ""; "drive.google.com"; "drive"; "u"; n; "folders"; id]).
  { change ("https://drive.google.com/drive/u/" ++ n ++ "/folders/" ++ id)
      with ("https://drive.google.com/drive/u"
              ++ String "/" (n ++ String "/" ("folders" ++ String "/" id))).
    now rewrite !segments_join, (segments_slashfree n), (segments_slashfree id). }
  rewrite extract_id_cases.
  rewrite sheets_unmatched, drive_unmatched, (search_lacking id_re "=").
  - reflexivity.
  - reflexivity.
  - rewrite !lacks_append.
    rewrite (lacks_of_class digit "=" n), (lacks_of_class id_char "=" id);
      reflexivity || assumption.
  - rewrite Hsegs. simpl. unfold drive_window.
    rewrite (digits_not_drive n Hn). reflexivity.
  - rewrite Hsegs. simpl. unfold sheets_window, in_list. simpl.
    now destruct (String.eqb n "spreadsheets"), (String.eqb n "presentation").
Qed.

Lemma account_folder_link_rejected_witness :
  _extract_id ("https://drive.google.com/drive/u/" ++ "0" ++ "/folders/" ++ "XyZ_9-8")
  = Raises (ValueError "Invalid Google link").
Proof. apply account_folder_link_rejected; reflexivity. Defined.

(** X6: The links [generate_access_link] makes are not links the resolver takes:
    for an identifier of allowed characters, and so for every identifier the
    resolver has returned, resolving the generated link fails. *)
Theorem access_link_not_resolved :
  (forall file_id,
     all_chars id_char file_id = true ->
     _extract_id (DriveService.generate_access_link file_id)
     = Raises (ValueError "Invalid Google link"))
  /\ (forall link file_id,
        _extract_id link = Returns file_id ->
        _extract_id (DriveService.generate_access_link file_id)
        = Raises (ValueError "Invalid Google link")).
Proof.
  assert (Hmain : forall file_id,
            all_chars id_char file_id = true ->
            _extract_id (DriveService.generate_access_link file_id)
            = Raises (ValueError "Invalid Google link")).
  { intros id Hid. unfold DriveService.generate_access_link.
    assert (Hid_free : lacks "/" id = true) by now apply (lacks_of_class id_char).
    assert (Hsegs : segments ("https://drive.google.com/file/d/" ++ id ++ "/view?usp=sharing")
                    = ["https:"; ""; "drive.google.com"; "file"; "d"; id;
                       "view?usp=sharing"]).
    { change ("https://drive.google.com/file/d/" ++ id ++ "/view?usp=sharing")
        with ("https://drive.google.com/file/d"
                ++ String "/" (id ++ String "/" "view?usp=sharing")).
      now rewrite !segments_join, (segments_slashfree id). }
    rewrite extract_id_cases.
    rewrite sheets_unmatched, drive_unmatched by (rewrite Hsegs; reflexivity).
    replace ("https://drive.google.com/file/d/" ++ id ++ "/view?usp=sharing")
      with (("https://drive.google.com/file/d/" ++ id ++ "/view?usp")
              ++ String "=" "sharing")
      by (now rewrite !append_assoc).
    rewrite id_param_unmatched; [reflexivity | | reflexivity |].
    - rewrite !lacks_append, (lacks_of_class id_char "=" id); reflexivity || assumption.
    - now rewrite !reverse_append. }
  split; [exact Hmain |].
  intros link id Hid. apply Hmain. now apply (extract_id_returns link).
Qed.

Lemma access_link_not_resolved_witness :
  _extract_id (DriveService.generate_access_link "1A2b3C4d")
  = Raises (ValueError "Invalid Google link")
  /\ _extract_id (DriveService.generate_access_link "XyZ_9-8")
     = Raises (ValueError "Invalid Google link").
Proof.
  split.
  - apply (proj1 access_link_not_resolved). reflexivity.
  - apply (proj2 access_link_not_resolved "https://drive.google.com/drive/folders/XyZ_9-8").
    reflexivity.
Defined.

(** X7: [download_folder] reads its folder id as a link: the inner call
    [get_folder_files(folder_id)] passes the id where the link goes.  So a call
    with a link only never gets to list a folder, nor does a call with an
    identifier of allowed characters; the call goes through only when the
    [folder_id] argument is itself a link the resolver takes. *)
Theorem download_folder_reads_id_as_link :
  (forall link id, truthy (Some id) = true ->
     DriveService.download_folder_listing link (Some id) = _extract_id id)
  /\ (forall link id r, truthy id = false ->
        DriveService.download_folder_listing link id <> Returns r)
  /\ (forall link id, truthy (Some id) = true -> all_chars id_char id = true ->
        DriveService.download_folder_listing link (Some id)
        = Raises (ValueError "Invalid Google link")).
Proof.
  assert (Hread : forall link id, truthy (Some id) = true ->
            DriveService.download_folder_listing link (Some id) = _extract_id id).
  { intros link id Hid.
    unfold DriveService.download_folder_listing, DriveService.download_and_map.
    rewrite if_not_truthy by assumption. reflexivity. }
  split; [exact Hread |]. split.
  - intros link id r Hid.
    unfold DriveService.download_folder_listing, DriveService.download_and_map.
    rewrite if_not_falsy by assumption.
    destruct (_extract_id_of link) as [found|e] eqn:Hlink; cbn [bind];
      [| discriminate].
    unfold DriveService.get_folder_files. simpl.
    destruct link as [link|]; simpl in Hlink; [| discriminate Hlink].
    apply extract_id_returns in Hlink. destruct Hlink as [_ [Hchars _]].
    rewrite (identifier_unmatched found Hchars). discriminate.
  - intros link id Hid Hchars. rewrite Hread by assumption.
    now apply identifier_unmatched.
Qed.

Lemma download_folder_reads_id_as_link_witness :
  DriveService.download_folder_listing None
    (Some "https://drive.google.com/drive/folders/XyZ_9-8")
  = _extract_id "https://drive.google.com/drive/folders/XyZ_9-8"
  /\ DriveService.download_folder_listing
       (Some "https://drive.google.com/drive/folders/XyZ_9-8") None
     <> Returns "XyZ_9-8"
  /\ DriveService.download_folder_listing None (Some "XyZ_9-8")
     = Raises (ValueError "Invalid Google link").
Proof.
  destruct download_folder_reads_id_as_link as [Hread [Hlink Hid]].
  split; [apply Hread; reflexivity |].
  split; [apply Hlink; reflexivity | apply Hid; reflexivity].
Defined.

(** X8: [copy_file] cannot be given the target folder by id: with a non-empty
    [folder_id] it never returns, and once the file pair is resolved it is the
    unassigned [parent_folder_id] that stops it. *)
Theorem copy_file_rejects_folder_id (file_link file_id folder_link : option string)
    (folder_id : string) :
  truthy (Some folder_id) = true ->
  (forall ids,
     DriveService.copy_file file_link file_id folder_link (Some folder_id) <> Returns ids)
  /\ (forall r,
        DriveService.download_file file_link file_id = Returns r ->
        DriveService.copy_file file_link file_id folder_link (Some folder_id)
        = Raises UnboundLocalError).
Proof.
  intros Hfolder. unfold DriveService.copy_file, DriveService.download_file.
  rewrite (if_not_truthy folder_id) by assumption.
  split.
  - intros ids. now destruct (if_not file_id _ _).
  - intros r Hr. now rewrite Hr.
Qed.

Lemma copy_file_rejects_folder_id_witness :
  (forall ids,
     DriveService.copy_file
       (Some "https://docs.google.com/presentation/d/1A2b3C4d/edit") None
       None (Some "XyZ_9-8")
     <> Returns ids)
  /\ (forall r,
        DriveService.download_file
          (Some "https://docs.google.com/presentation/d/1A2b3C4d/edit") None
        = Returns r ->
        DriveService.copy_file
          (Some "https://docs.google.com/presentation/d/1A2b3C4d/edit") None
          None (Some "XyZ_9-8")
        = Raises UnboundLocalError).
Proof. apply copy_file_rejects_folder_id. reflexivity. Defined.

Lemma dict_get_mime_types (file_type mime_type : string) :
  DriveService.dict_get file_type DriveService.mime_types = Some mime_type ->
  In file_type ["spreadsheet"; "document"; "presentation"]
  /\ mime_type = "application/vnd.google-apps." ++ file_type.
Proof.
  simpl.
  destruct (String.eqb_spec file_type "spreadsheet") as [->|_].
  { intros Hm. injection Hm as <-. simpl. auto. }
  destruct (String.eqb_spec file_type "document") as [->|_].
  { intros Hm. injection Hm as <-. simpl. auto. }
  destruct (String.eqb_spec file_type "presentation") as [->|_].
  { intros Hm. injection Hm as <-. simpl. auto. }
  intros Hm. discriminate Hm.
Qed.

(** X9: Every file [create_file] asks for has exactly one parent folder, with a
    non-empty identifier (the empty [parents] list of the source is never
    sent), one of the three supported types, and the Google type of that
    name; a missing folder is reported before an unsupported type is. *)
Theorem create_file_has_one_parent :
  (forall file_name file_type folder_id folder_link body,
     DriveService.create_file_metadata file_name file_type folder_id folder_link
     = Returns body ->
     (exists parent,
        DriveService.parents body = [parent] /\ parent <> ""
        /\ DriveService.create_file folder_id folder_link = Returns parent)
     /\ In file_type ["spreadsheet"; "document"; "presentation"]
     /\ DriveService.mimeType body = "application/vnd.google-apps." ++ file_type
     /\ DriveService.name body = file_name)
  /\ (forall file_name file_type folder_id folder_link,
        truthy folder_id = false -> truthy folder_link = false ->
        DriveService.create_file_metadata file_name file_type folder_id folder_link
        = Raises (ValueError "Either folder_id or folder_link must be provided.")).
Proof.
  split.
  - intros file_name file_type folder_id folder_link body.
    unfold DriveService.create_file_metadata.
    destruct (DriveService.create_file folder_id folder_link) as [parent|e] eqn:Hparent;
      cbn [bind]; [| intros Hb; discriminate Hb].
    assert (Hne : parent <> "").
    { unfold DriveService.create_file in Hparent.
      destruct folder_id as [[|c s]|]; simpl in Hparent.
      2: { injection Hparent as <-. discriminate. }
      all: destruct folder_link as [[|c s]|]; simpl in Hparent;
        try discriminate Hparent; now apply extract_id_returns in Hparent. }
    destruct (DriveService.dict_get file_type DriveService.mime_types)
      as [mime_type|] eqn:Hmime; [| intros Hb; discriminate Hb].
    intros Hb. injection Hb as <-.
    cbn [DriveService.parents DriveService.mimeType DriveService.name].
    apply dict_get_mime_types in Hmime. destruct Hmime as [Hin ->].
    split; [| now repeat split].
    exists parent. split; [| now split].
    destruct parent; [contradiction | reflexivity].
  - intros file_name file_type folder_id folder_link Hid Hlink.
    unfold DriveService.create_file_metadata, DriveService.create_file.
    now rewrite !if_not_falsy by assumption.
Qed.

Lemma create_file_has_one_parent_witness :
  ((exists parent,
      [ "XyZ_9-8" ] = [parent] /\ parent <> ""
      /\ DriveService.create_file None
           (Some "https://drive.google.com/drive/folders/XyZ_9-8")
         = Returns parent)
   /\ In "presentation" ["spreadsheet"; "document"; "presentation"]
   /\ "application/vnd.google-apps.presentation"
      = "application/vnd.google-apps." ++ "presentation"
   /\ "Test File" = "Test File")
  /\ DriveService.create_file_metadata "Test File" "drawing" None (Some "")
     = Raises (ValueError "Either folder_id or folder_link must be provided.").
Proof.
  split.
  - apply (proj1 create_file_has_one_parent "Test File" "presentation" None
             (Some "https://drive.google.com/drive/folders/XyZ_9-8")
             (DriveService.FileMetadata "Test File"
                "application/vnd.google-apps.presentation" ["XyZ_9-8"])).
    reflexivity.
  - apply (proj2 create_file_has_one_parent); reflexivity.
Defined.

End DriveMore.

(** ** The (link, id) pair in the service methods *)

Section Pair.
Import BaseService.






End Pair.

(** ** The column names, further *)

Section ColumnNameMore.
Import SheetsService ColumnCodec.

Lemma upper_bounds (c : ascii) : upper c = true -> 65 <= ord c <= 90.
Proof.
  unfold upper, between, ord.
  change (N_of_ascii "A") with 65%N. change (N_of_ascii "Z") with 90%N.
  intros Hc. apply andb_prop in Hc. destruct Hc as [Hlo Hhi].
  apply N.leb_le in Hlo, Hhi. lia.
Qed.

Lemma letter_of_digit (acc : Z) (c : ascii) :
  upper c = true -> letter_of (acc * 26 + (ord c - 65 + 1)) = c.
Proof.
  intros Hc. pose proof (upper_bounds c Hc) as Hb. unfold letter_of.
  change (ord "A") with 65.
  replace (acc * 26 + (ord c - 65 + 1) - 1) with (ord c - 65 + acc * 26) by lia.
  rewrite Z.mod_add, Z.mod_small by lia.
  replace (ord c - 65 + 65) with (ord c) by lia.
  unfold ord. rewrite N2Z.id. apply ascii_N_embedding.
Qed.

(** Writing the label of the number a string of capitals stands for gives the
    string back. *)
Lemma column_label_label_value_from (s : string) :
  forall acc,
    0 <= acc -> all_chars upper s = true ->
    column_label (label_value_from acc s) = column_label acc ++ s
    /\ acc <= label_value_from acc s.
Proof.
  induction s as [|c s IH]; intros acc Hacc Hs; simpl.
  - rewrite append_empty_r. split; [reflexivity | lia].
  - simpl in Hs. apply andb_prop in Hs. destruct Hs as [Hc Hs].
    pose proof (upper_bounds c Hc) as Hb. change (ord "A") with 65.
    destruct (IH (acc * 26 + (ord c - 65 + 1)) ltac:(lia) Hs) as [Hlabel Hle].
    split; [| lia].
    rewrite Hlabel, column_label_pos by lia.
    rewrite letter_of_digit by assumption.
    replace ((acc * 26 + (ord c - 65 + 1) - 1) / 26) with acc.
    + now rewrite append_assoc.
    + replace (acc * 26 + (ord c - 65 + 1) - 1) with (ord c - 65 + acc * 26) by lia.
      rewrite Z.div_add, Z.div_small by lia. lia.
Qed.

(** X10: Every non-empty string of capital letters is the name of a column, and of
    one column only: the conversion is onto the labels, and no other integer,
    positive or not, gets the same name. *)
Theorem every_label_is_a_column (label : string) :
  label <> "" -> all_chars upper label = true ->
  exists idx,
    1 <= idx /\ __get_column_name idx = Returns label
    /\ forall other, __get_column_name other = Returns label -> other = idx.
Proof.
  intros Hne Hupper.
  destruct (column_label_label_value_from label 0 ltac:(lia) Hupper) as [Hlabel Hle].
  rewrite (column_label_nonpos 0) in Hlabel by lia. simpl in Hlabel.
  fold (label_value label) in Hlabel, Hle.
  assert (Hpos : forall idx, column_label idx = label -> 1 <= idx).
  { intros idx Hidx. destruct (Z_le_gt_dec idx 0) as [Hnonpos|Hgt]; [| lia].
    rewrite column_label_nonpos in Hidx by assumption. congruence. }
  exists (label_value label). split; [now apply Hpos |].
  split; [now rewrite get_column_name_label, Hlabel |].
  intros other Hother. rewrite get_column_name_label in Hother.
  injection Hother as Hother. pose proof (Hpos other Hother) as Hone.
  rewrite <- (label_value_column_label other) by lia. now rewrite Hother.
Qed.

Lemma every_label_is_a_column_witness :
  exists idx,
    1 <= idx /\ __get_column_name idx = Returns "XFD"
    /\ forall other, __get_column_name other = Returns "XFD" -> other = idx.
Proof. apply every_label_is_a_column; [discriminate | reflexivity]. Defined.

Lemma range_bounds (lo hi i : Z) : In i (range lo hi) -> lo <= i < hi.
Proof.
  unfold range. intros Hin. apply in_map_iff in Hin.
  destruct Hin as [k [<- Hk]]. apply in_seq in Hk. lia.
Qed.

Lemma map_NoDup_on {A B : Type} (f : A -> B) (l : list A) :
  (forall a b, In a l -> In b l -> f a = f b -> a = b) ->
  NoDup l -> NoDup (map f l).
Proof.
  intros Hinj Hl. induction Hl as [|a l Hnotin Hl IH]; simpl; constructor.
  - intros Hin. apply in_map_iff in Hin. destruct Hin as [b [Hfb Hb]].
    apply Hnotin. rewrite <- (Hinj b a); simpl; auto.
  - apply IH. intros x y Hx Hy. apply Hinj; simpl; auto.
Qed.

Lemma range_NoDup (lo hi : Z) : NoDup (range lo hi).
Proof.
  unfold range. apply map_NoDup_on; [| apply seq_NoDup].
  intros a b _ _ Hab. lia.
Qed.

Lemma column_labels_NoDup (lo hi : Z) :
  1 <= lo -> NoDup (map column_label (range lo hi)).
Proof.
  intros Hlo. apply map_NoDup_on; [| apply range_NoDup].
  intros i j Hi Hj Heq. apply range_bounds in Hi, Hj.
  rewrite <- (label_value_column_label i), <- (label_value_column_label j) by lia.
  now rewrite Heq.
Qed.

(** X11: The generated column names are pairwise distinct, and each is a non-empty
    string of capital letters. *)
Theorem column_names_distinct (columns_num : Z) (names : list string) :
  __get_column_names columns_num = Returns names ->
  NoDup names
  /\ Forall (fun name => name <> "" /\ all_chars upper name = true) names.
Proof.
  rewrite get_column_names_labels. intros Hnames. injection Hnames as <-. split.
  - apply column_labels_NoDup. lia.
  - apply Forall_forall. intros name Hin. apply in_map_iff in Hin.
    destruct Hin as [i [<- Hi]]. apply range_bounds in Hi.
    split; [apply column_label_nonempty; lia | apply column_label_upper].
Qed.

Lemma column_names_distinct_witness :
  NoDup ["A"; "B"; "C"]
  /\ Forall (fun name => name <> "" /\ all_chars upper name = true) ["A"; "B"; "C"].
Proof. apply (column_names_distinct 3). reflexivity. Defined.

End ColumnNameMore.

(** ** The headers of a data frame *)

Section Headers.
Import SheetsService.

Lemma max_len_from (values : list (list string)) :
  forall acc,
    let longest :=
      fold_left
        (fun max_len row =>
           if Z.of_nat (List.length row) >? max_len then Z.of_nat (List.length row)
           else max_len)
        values acc in
    acc <= longest
    /\ Forall (fun row => Z.of_nat (List.length row) <= longest) values
    /\ (longest = acc
        \/ exists row, In row values /\ Z.of_nat (List.length row) = longest).
Proof.
  induction values as [|row values IH]; intros acc; simpl.
  - split; [lia |]. split; [constructor | now left].
  - specialize (IH (if Z.of_nat (List.length row) >? acc
                    then Z.of_nat (List.length row) else acc)).
    simpl in IH. destruct IH as [Hle [Hall Hfrom]].
    destruct (Z.gtb_spec (Z.of_nat (List.length row)) acc) as [Hlonger|Hshorter].
    + split; [lia |]. split; [constructor; [lia | exact Hall] |].
      right. destruct Hfrom as [->|[row' [Hin Hlen]]].
      * exists row. split; [now left | reflexivity].
      * exists row'. split; [now right | exact Hlen].
    + split; [lia |]. split; [constructor; [lia | exact Hall] |].
      destruct Hfrom as [->|[row' [Hin Hlen]]]; [now left |].
      right. exists row'. split; [now right | exact Hlen].
Qed.

(** X12: With [header_id] left at [False] (or given as 0) the headers are the
    generated column names, never the first row: there are as many as the
    longest row has cells, so every row fits under them, they are pairwise
    distinct, and a sheet without rows gets none. *)
Theorem generated_headers_fit_rows (values : list (list string)) :
  exists names,
    headers (Some values) 0 = Done names
    /\ __get_column_names (max_len values) = Returns names
    /\ Z.of_nat (List.length names) = max_len values
    /\ Forall (fun row => (List.length row <= List.length names)%nat) values
    /\ (values = [] \/ exists row, In row values /\ List.length row = List.length names)
    /\ NoDup names.
Proof.
  destruct (max_len_from values 0) as [Hnonneg [Hall Hfrom]].
  fold (max_len values) in Hnonneg, Hall, Hfrom.
  exists (map column_label (range 1 (max_len values + 1))).
  assert (Hlen : Z.of_nat (List.length (map column_label (range 1 (max_len values + 1))))
                 = max_len values).
  { rewrite length_map, range_length. lia. }
  split; [unfold headers; simpl; now rewrite get_column_names_labels |].
  split; [apply get_column_names_labels |].
  split; [exact Hlen |]. split; [| split].
  - apply Forall_forall. intros row Hin.
    rewrite Forall_forall in Hall. specialize (Hall row Hin). lia.
  - destruct Hfrom as [Hzero|[row [Hin Hrow]]].
    + destruct values as [|row values]; [now left |]. right.
      exists row. split; [now left |].
      rewrite Forall_forall in Hall. specialize (Hall row (or_introl eq_refl)). lia.
    + right. exists row. split; [exact Hin | lia].
  - apply column_labels_NoDup. lia.
Qed.

(** X13: A call without a sheet reports every failure to resolve its pair in the
    same words: a link that is there but is no Google link gives "Either sheet
    or file_link or file_id must be provided." as well. *)
Theorem dataframe_errors_look_alike :
  (forall file_link file_id e,
     get_dataframe_from_sheet_id false file_link file_id = Raises e ->
     e = ValueError "Either sheet or file_link or file_id must be provided.")
  /\ (forall file_link file_id,
        truthy (Some file_link) = true -> truthy file_id = false ->
        BaseService._extract_id file_link = Raises (ValueError "Invalid Google link") ->
        get_dataframe_from_sheet_id false (Some file_link) file_id
        = Raises (ValueError "Either sheet or file_link or file_id must be provided.")).
Proof.
  split.
  - intros file_link file_id e. unfold get_dataframe_from_sheet_id. simpl.
    destruct (get_sheet file_link file_id) as [r|e'] eqn:Hsheet;
      [intros He; discriminate He |].
    rewrite get_sheet_get_file_id in Hsheet.
    apply get_file_id_raises in Hsheet.
    destruct Hsheet as [-> | ->]; intros He; now injection He as <-.
  - intros file_link file_id Hlink Hid Hbad.
    unfold get_dataframe_from_sheet_id. simpl.
    rewrite get_sheet_get_file_id.
    rewrite (proj2 (proj2 get_file_id_precedence) file_link file_id Hlink Hid), Hbad.
    reflexivity.
Qed.

Lemma dataframe_errors_look_alike_witness :
  ValueError "Either sheet or file_link or file_id must be provided."
  = ValueError "Either sheet or file_link or file_id must be provided."
  /\ get_dataframe_from_sheet_id false (Some "https://example.com/no-match-here") None
     = Raises (ValueError "Either sheet or file_link or file_id must be provided.").
Proof.
  split.
  - apply (proj1 dataframe_errors_look_alike None None). reflexivity.
  - apply (proj2 dataframe_errors_look_alike); reflexivity.
Defined.

End Headers.

(** ** The tags of the speaker notes *)

Section Tags.
Import BaseService SlidesService.

Lemma and_then_done {A B : Type} (c : result A) (k : A -> result B) (b : B) :
  and_then c k = Done b -> exists a, c = Done a /\ k a = Done b.
Proof. destruct c as [a|e]; simpl; [eauto | discriminate]. Qed.

Lemma find_tag_is_tag (note_text : json) (tag : string) :
  find_tag note_text = Some tag -> is_tag tag.
Proof.
  destruct note_text as [| | |s| |]; simpl; try discriminate.
  destruct (Re.search tag_re s) as [m|] eqn:Hsearch; simpl; [| discriminate].
  intros Htag. injection Htag as <-.
  destruct (search_group2 _ _ _ Hsearch) as [Hne [Hall _]].
  now exists (Re.group2 m).
Qed.

Lemma append_at_keys (tag : string) (x : json) (m : list (string * list json)) :
  forall k, In k (map fst (append_at tag x m)) <-> k = tag \/ In k (map fst m).
Proof.
  induction m as [|[k0 v0] m IH]; intros k; simpl.
  - intuition.
  - destruct (String.eqb_spec k0 tag) as [->|Hne]; simpl.
    + intuition.
    + rewrite IH. intuition.
Qed.

Lemma append_at_NoDup (tag : string) (x : json) (m : list (string * list json)) :
  NoDup (map fst m) -> NoDup (map fst (append_at tag x m)).
Proof.
  induction m as [|[k0 v0] m IH]; simpl; intros Hm.
  - constructor; [intros [] | constructor].
  - inversion Hm as [|? ? Hnotin Hrest]; subst.
    destruct (String.eqb_spec k0 tag) as [->|Hne]; simpl.
    + now constructor.
    + constructor; [| now apply IH].
      rewrite append_at_keys. intros [->|Hin]; [now apply Hne | contradiction].
Qed.

Lemma append_at_Forall (P : string * list json -> Prop) (tag : string) (x : json)
    (m : list (string * list json)) :
  P (tag, [x]) ->
  (forall v, P (tag, v) -> P (tag, (v ++ [x])%list)) ->
  Forall P m -> Forall P (append_at tag x m).
Proof.
  intros Hfirst Hnext. induction m as [|[k0 v0] m IH]; simpl; intros Hm.
  - constructor; [exact Hfirst | constructor].
  - inversion Hm as [|? ? Hhead Hrest]; subst.
    destruct (String.eqb_spec k0 tag) as [->|Hne]; constructor; auto.
Qed.

Lemma append_at_held (tag : string) (x : json) (m : list (string * list json)) :
  held (append_at tag x m) = S (held m).
Proof.
  induction m as [|[k0 v0] m IH]; simpl; [reflexivity |].
  destruct (String.eqb k0 tag); simpl.
  - rewrite length_app. simpl. lia.
  - rewrite IH. lia.
Qed.

(** What one pass of the loop does to the map: nothing, or one more slide id
    under a hashtag. *)
Lemma tag_slide_done (m m' : list (string * list json)) (slide : json) :
  tag_slide m slide = Done m' ->
  m' = m
  \/ exists tag object_id,
       is_tag tag /\ item slide "objectId" = Done object_id
       /\ m' = append_at tag object_id m.
Proof.
  unfold tag_slide. intros Hstep.
  repeat (apply and_then_done in Hstep; destruct Hstep as [? [_ Hstep]]).
  destruct (json_truthy _); [| injection Hstep as <-; now left].
  repeat (apply and_then_done in Hstep; destruct Hstep as [? [_ Hstep]]).
  destruct (find_tag _) as [tag|] eqn:Htag; [| injection Hstep as <-; now left].
  apply and_then_done in Hstep. destruct Hstep as [object_id [Hid Hstep]].
  injection Hstep as <-. right. exists tag, object_id.
  split; [now apply (find_tag_is_tag _ _ Htag) | now split].
Qed.

Lemma run_append (f : ascii -> bool) (a b : string) :
  all_chars f a = true -> Re.run f (a ++ b) = a ++ Re.run f b.
Proof.
  induction a as [|c a IH]; simpl; [reflexivity |].
  intros Hall. apply andb_prop in Hall. destruct Hall as [Hc Ha].
  now rewrite Hc, (IH Ha).
Qed.

Lemma search_skip (p : Re.pattern) (x : ascii) (l s : string) :
  Re.lead p = String x l ->
  forall before, lacks x before = true -> Re.search p (before ++ s) = Re.search p s.
Proof.
  intros Hlead. unfold lacks.
  induction before as [|c before IH]; simpl; [reflexivity |].
  intros Hlacks. apply andb_prop in Hlacks. destruct Hlacks as [Hc Hbefore].
  unfold Re.match_at. rewrite Hlead. simpl.
  rewrite Ascii.eqb_sym. apply negb_true_iff in Hc. rewrite Hc. now apply IH.
Qed.

(** X14: Of the hashtags in a note it is the first that counts: the slide is filed
    under the first [#] that an allowed character follows, with the whole run
    of allowed characters after it. *)
Theorem first_hashtag_is_taken (before name after : string) :
  lacks "#" before = true ->
  name <> "" -> all_chars id_char name = true -> Re.run id_char after = "" ->
  find_tag (JStr (before ++ "#" ++ name ++ after)) = Some ("#" ++ name).
Proof.
  intros Hbefore Hne Hname Hafter. unfold find_tag.
  rewrite (search_skip tag_re "#" "" _ eq_refl before Hbefore).
  assert (Hrun : Re.run id_char (name ++ after) = name)
    by now rewrite run_append, Hafter, append_empty_r.
  destruct name as [|c name]; [contradiction |].
  change (Re.search tag_re ("#" ++ String c name ++ after))
    with (match Re.match_at tag_re (String "#" (String c name ++ after)) with
          | Some m => Some m
          | None => Re.search tag_re (String c name ++ after)
          end).
  unfold Re.match_at, Re.alts_at, Re.tail_at. simpl strip. cbv iota.
  cbn [Re.alts Re.cls Re.sep tag_re strip].
  change (String c (name ++ after)) with (String c name ++ after).
  rewrite Hrun. reflexivity.
Qed.

Lemma first_hashtag_is_taken_witness :
  find_tag (JStr ("as in " ++ "#" ++ "intro" ++ ", before #end")) = Some ("#" ++ "intro").
Proof.
  apply first_hashtag_is_taken; [reflexivity | discriminate | reflexivity | reflexivity].
Defined.

(** The map keeps its shape over the loop. *)
Lemma tag_slides_done (all : list json) (slides : list json) :
  forall m m',
    for_all slides tag_slide m = Done m' ->
    (forall slide, In slide slides -> In slide all) ->
    NoDup (map fst m) ->
    Forall (fun entry =>
              is_tag (fst entry) /\ snd entry <> []
              /\ Forall (fun object_id =>
                           exists slide,
                             In slide all /\ item slide "objectId" = Done object_id)
                   (snd entry)) m ->
    NoDup (map fst m')
    /\ Forall (fun entry =>
                 is_tag (fst entry) /\ snd entry <> []
                 /\ Forall (fun object_id =>
                              exists slide,
                                In slide all /\ item slide "objectId" = Done object_id)
                      (snd entry)) m'
    /\ (held m' <= held m + List.length slides)%nat.
Proof.
  induction slides as [|slide slides IH]; intros m m' Hloop Hsub Hkeys Hentries; simpl in *.
  - injection Hloop as <-. repeat split; auto. lia.
  - apply and_then_done in Hloop. destruct Hloop as [m1 [Hstep Hloop]].
    assert (Hsub' : forall s, In s slides -> In s all) by auto.
    apply tag_slide_done in Hstep.
    destruct Hstep as [->|[tag [object_id [Htag [Hid ->]]]]].
    + destruct (IH m m' Hloop Hsub' Hkeys Hentries) as [H1 [H2 H3]].
      repeat split; auto. lia.
    + assert (Hfrom : exists s, In s all /\ item s "objectId" = Done object_id)
        by (exists slide; auto).
      destruct (IH _ m' Hloop Hsub') as [H1 [H2 H3]].
      * now apply append_at_NoDup.
      * apply append_at_Forall; [| | exact Hentries]; simpl.
        -- split; [exact Htag |]. split; [discriminate |]. now repeat constructor.
        -- intros v [_ [_ Hv]]. split; [exact Htag |].
           split; [now destruct v |].
           apply Forall_app. split; [exact Hv | now repeat constructor].
      * rewrite append_at_held in H3. repeat split; auto. lia.
Qed.

(** X15: The map [get_tags_from_speaker_notes] returns is well formed: its keys are
    hashtags, each once; no key has an empty list; every id listed is the
    [objectId] of one of the slides; and a pass of the loop lists at most one
    id, so the map holds no more ids than there are slides. *)
Theorem tags_map_wellformed (slides : list json) (m : list (string * list json)) :
  get_tags_from_speaker_notes slides = Done m ->
  NoDup (map fst m)
  /\ Forall (fun entry =>
               is_tag (fst entry) /\ snd entry <> []
               /\ Forall (fun object_id =>
                            exists slide,
                              In slide slides /\ item slide "objectId" = Done object_id)
                    (snd entry)) m
  /\ (held m <= List.length slides)%nat.
Proof.
  intros Hloop.
  apply (tag_slides_done slides slides [] m Hloop); auto; constructor.
Qed.

Lemma tags_map_wellformed_witness :
  NoDup (map fst [("#intro", [JStr "p1"; JStr "p3"]); ("#end", [JStr "p4"])])
  /\ Forall (fun entry =>
               is_tag (fst entry) /\ snd entry <> []
               /\ Forall (fun object_id =>
                            exists slide,
                              In slide
                                [slide_with_note "p1" "#intro first slide";
                                 slide_with_note "p2" "nothing to see";
                                 slide_with_note "p3" "as in #intro, before #end";
                                 slide_with_note "p4" "#end"]
                              /\ item slide "objectId" = Done object_id)
                    (snd entry))
       [("#intro", [JStr "p1"; JStr "p3"]); ("#end", [JStr "p4"])]
  /\ (held [("#intro", [JStr "p1"; JStr "p3"]); ("#end", [JStr "p4"])] <= 4)%nat.
Proof.
  apply (tags_map_wellformed
           [slide_with_note "p1" "#intro first slide";
            slide_with_note "p2" "nothing to see";
            slide_with_note "p3" "as in #intro, before #end";
            slide_with_note "p4" "#end"]).
  reflexivity.
Defined.

Lemma tag_slide_failed (m : list (string * list json)) (slide : json) (e : error) :
  tag_slide m slide = Failed e -> forall m', tag_slide m' slide = Failed e.
Proof.
  unfold tag_slide. intros Hstep m'.
  repeat match type of Hstep with
         | context [and_then ?c _] => destruct c; cbn [and_then] in *
         | context [if ?b then _ else _] => destruct b
         | context [find_tag ?x] => destruct (find_tag x)
         end;
    (discriminate Hstep || exact Hstep).
Qed.

Lemma for_all_failed {A S : Type} (body : S -> A -> result S) (x : A) (after : list A) :
  (forall s, exists e, body s x = Failed e) ->
  forall before s, exists e, for_all (before ++ x :: after) body s = Failed e.
Proof.
  intros Hfails. induction before as [|a before IH]; intros s; simpl.
  - destruct (Hfails s) as [e ->]. now exists e.
  - destruct (body s a) as [s'|e]; simpl; [apply IH | now exists e].
Qed.

(** X16: One slide the loop cannot read makes the whole call fail, whatever the
    slides before it have given and whatever follows: no part of the map is
    returned. *)
Theorem tags_fail_as_a_whole (before after : list json) (slide : json)
    (m : list (string * list json)) (e : error) :
  tag_slide m slide = Failed e ->
  exists e', get_tags_from_speaker_notes (before ++ slide :: after) = Failed e'.
Proof.
  intros Hslide. unfold get_tags_from_speaker_notes. apply for_all_failed.
  intros m'. exists e. now apply (tag_slide_failed m).
Qed.

Lemma tags_fail_as_a_whole_witness :
  exists e',
    get_tags_from_speaker_notes
      ([slide_with_note "p1" "#intro"]
         ++ JDict [("objectId", JStr "p2");
                   ("slideProperties",
                    JDict [("notesPage", JDict [("pageElements", JList [JDict []])])])]
         :: [slide_with_note "p3" "#end"])
    = Failed e'.
Proof.
  apply (tags_fail_as_a_whole _ _ _ [] IndexError). reflexivity.
Defined.

(** X17: [_get_credentials] checks nothing: an explicit argument, the empty string
    too, is returned whatever the environment and the file system hold; the
    environment variable is returned when there is no argument; the call fails
    only when both are missing; and at most one error is logged. *)
Theorem credentials_are_not_checked :
  (forall getenv fs file,
     snd (_get_credentials getenv fs (Some file)) = Done file)
  /\ (forall fs file, snd (_get_credentials (Some file) fs None) = Done file)
  /\ (forall getenv fs service_account_file e,
        snd (_get_credentials getenv fs service_account_file) = Failed e ->
        getenv = None /\ service_account_file = None)
  /\ (forall getenv fs service_account_file,
        (List.length (fst (_get_credentials getenv fs service_account_file)) <= 1)%nat).
Proof.
  split; [reflexivity |]. split; [reflexivity |]. split.
  - intros getenv fs [file|] e; simpl; [intros He; discriminate He |].
    destruct getenv as [file|]; simpl; [intros He; discriminate He | auto].
  - intros getenv fs [file|]; simpl.
    2: destruct getenv as [file|]; simpl; [| lia].
    all: destruct (path_exists fs file), (path_isfile fs file), (path_readable fs file);
      simpl; lia.
Qed.

Lemma credentials_are_not_checked_witness :
  @None string = None /\ @None string = None.
Proof.
  apply (proj1 (proj2 (proj2 credentials_are_not_checked)) None
           (FileSystem (fun _ => false) (fun _ => false) (fun _ => false)) None
           (Exception "The service_account_file option must be set either by passing service_account_file to the client or by setting the GOOGLE_APPLICATION_CREDENTIALS environment variable")).
  reflexivity.
Defined.

End Tags.
